(** * Student assignment extraction and download: attachment parsing,
      retrying download, file-name collisions, CSV rows and statistics.

    A shallow embedding of [extract_student_assignment.py] (v1),
    [extract_student_assignment_v2.py], [extract_student_assignment_v4.py]
    and [download_student_files.py], with the properties of the attachment
    parser, the fetcher and the traversal proved about it. *)

From Stdlib Require Import NArith String Ascii DecimalString DecimalNat.
From Stdlib Require Import ZArith QArith.
From stdpp Require Import base option list sorting gmap strings.

Close Scope Q_scope.

(** * Python strings

    A Python [str] is a sequence of Unicode code points; all the string
    operations of the scripts ([split], [strip], [startswith], [replace],
    slicing, comparison) work code point by code point. *)

Abbreviation char := N (only parsing).
Abbreviation pystr := (list N) (only parsing).

Module Str.

Local Open Scope N_scope.

(** An ASCII literal as a Python string. *)
Definition lit (s : string) : pystr :=
  (N_of_ascii <$> list_ascii_of_string s).

(** [bool(s)]: a string is truthy when it is not empty. *)
Definition truthy (s : pystr) : bool :=
  match s with [] => false | _ :: _ => true end.

(** [a == b] on strings. *)
Definition eqb (a b : pystr) : bool := bool_decide (a = b).

(** [x in [a, b, ...]] for a list of strings. *)
Definition in_list (x : pystr) (l : list pystr) : bool :=
  existsb (eqb x) l.

(** [s.startswith(p)]. *)
Fixpoint startswith (s p : pystr) {struct p} : bool :=
  match p, s with
  | [], _ => true
  | _ :: _, [] => false
  | a :: p', b :: s' => (a =? b) && startswith s' p'
  end.

(** [c.isspace()]: the code points [str.strip()] removes. *)
Definition isspace (c : char) : bool :=
  ((0x09 <=? c) && (c <=? 0x0D)) || ((0x1C <=? c) && (c <=? 0x20))
  || (c =? 0x85) || (c =? 0xA0) || (c =? 0x1680)
  || ((0x2000 <=? c) && (c <=? 0x200A))
  || (c =? 0x2028) || (c =? 0x2029) || (c =? 0x202F) || (c =? 0x205F)
  || (c =? 0x3000).

(** [s.lstrip()], [s.rstrip()] and [s.strip()]. *)
Fixpoint lstrip (s : pystr) : pystr :=
  match s with
  | c :: s' => if isspace c then lstrip s' else s
  | [] => []
  end.

Definition rstrip (s : pystr) : pystr := reverse (lstrip (reverse s)).

Definition strip (s : pystr) : pystr := rstrip (lstrip s).

(** [s.split(sep)] for a non-empty separator: the text between the
    non-overlapping occurrences of [sep], found from the left.  [skip]
    counts the code points of a separator just matched that are still to be
    passed over, [cur] is the current segment, reversed. *)
Fixpoint split_go (sep : pystr) (skip : nat) (cur s : pystr) : list pystr :=
  match s with
  | [] => [reverse cur]
  | c :: s' =>
      match skip with
      | S k => split_go sep k cur s'
      | O =>
          if startswith s sep
          then reverse cur :: split_go sep (Nat.pred (length sep)) [] s'
          else split_go sep O (c :: cur) s'
      end
  end.

Definition split (sep s : pystr) : list pystr := split_go sep O [] s.

(** [sep.join(l)]. *)
Fixpoint join (sep : pystr) (l : list pystr) : pystr :=
  match l with
  | [] => []
  | [x] => x
  | x :: l' => x ++ sep ++ join sep l'
  end.

(** [s.replace(old, new)] for a one-character [old]. *)
Definition replace_char (old : char) (new : pystr) (s : pystr) : pystr :=
  s ≫= (λ c, if c =? old then new else [c]).

(** [a <= b]: code point by code point, a proper prefix first. *)
Fixpoint leb (a b : pystr) : bool :=
  match a, b with
  | [], _ => true
  | _ :: _, [] => false
  | x :: a', y :: b' => (x <? y) || ((x =? y) && leb a' b')
  end.

Definition le (a b : pystr) : Prop := leb a b = true.

#[global] Instance le_dec : RelDecision le.
Proof. intros a b. unfold le. apply _. Defined.

(** [str(n)] / [f"{n}"] for a non-negative integer. *)
Definition of_nat (n : nat) : pystr :=
  lit (NilEmpty.string_of_uint (Nat.to_uint n)).

End Str.

(** The literals of the scripts. *)
Definition no_attachment : pystr := [0xCCA8; 0xBD80; 0xC5C6; 0xC74C]%N.
(* "첨부없음" *)
Definition dash : pystr := Str.lit "-".
Definition pipe_sep : pystr := Str.lit " | ".
Definition newline : pystr := [0x0A]%N.
Definition https : pystr := Str.lit "https://".

Definition sentinels : list pystr := [no_attachment; dash].

(** * Exceptions

    What a Python expression evaluates to: a value, or a raised exception. *)

Inductive exn : Type :=
  | IndexError      (* a list index out of range *)
  | JSONReadError   (* [open] or [json.load] failed *)
  | ValueError      (* [urlparse] refused the URL *)
  | OSError.        (* a path could not be created *)

Inductive res (A : Type) : Type :=
  | Ok (a : A)
  | Raise (e : exn).
Arguments Ok {A} a.
Arguments Raise {A} e.

Definition res_bind {A B} (m : res A) (f : A → res B) : res B :=
  match m with
  | Ok a => f a
  | Raise e => Raise e
  end.

Declare Scope res_scope.
Delimit Scope res_scope with res.
Notation "'let!' x := m 'in' k" := (res_bind m (λ x, k))
  (at level 10, x pattern, m at level 100, k at level 200) : res_scope.
Local Open Scope res_scope.

(** [l[i]] for a non-negative constant index. *)
Definition getitem {A} (l : list A) (i : nat) : res A :=
  match l !! i with
  | Some x => Ok x
  | None => Raise IndexError
  end.

(** The text before the first newline of [s]. *)
Fixpoint first_line (s : pystr) : pystr :=
  match s with
  | [] => []
  | c :: s' => if (c =? 0x0A)%N then [] else c :: first_line s'
  end.

(** * The attachment parser *)

(** The parser's result: [(file_type, file_name, file_url)], [None] for an
    absent field. *)
Definition file_info : Type := option pystr * option pystr * option pystr.

(** download_student_files.py and extract_student_assignment_v4.py:
    the [for line in lines] loop of the fallback branch. *)
Fixpoint scan_lines (attachment_string : pystr) (lines : list pystr)
  : file_info :=
  match lines with
  | [] => (None, Some attachment_string, None)
  | line :: lines' =>
      let line := Str.strip line in
      if Str.startswith line https
      then (None, Some attachment_string, Some line)
      else scan_lines attachment_string lines'
  end.

(** [extract_file_info_from_attachment] of extract_student_assignment_v4.py
    and of download_student_files.py (the two are the same function). *)
Definition extract_file_info_from_attachment (attachment_string : pystr)
  : res file_info :=
  if negb (Str.truthy attachment_string)
     || Str.in_list attachment_string sentinels
  then Ok (None, None, None)
  else
    let parts := Str.split pipe_sep attachment_string in
    if 3 <=? length parts then
      let! p0 := getitem parts 0 in
      let file_type := Str.strip p0 in
      let! p1 := getitem parts 1 in
      let file_name := Str.strip p1 in
      let! p2 := getitem parts 2 in
      let file_url := Str.strip p2 in
      let url_lines := Str.split newline file_url in
      let! l0 := getitem url_lines 0 in
      let clean_url := Str.strip l0 in
      Ok (Some file_type, Some file_name, Some clean_url)
    else
      let lines := Str.split newline attachment_string in
      Ok (scan_lines attachment_string lines).

(** [extract_file_info_from_attachment] of extract_student_assignment.py and
    of extract_student_assignment_v2.py, the first form of the parser. *)
Module V1.

Definition extract_file_info_from_attachment (attachment_string : pystr)
  : res file_info :=
  if negb (Str.truthy attachment_string)
     || Str.in_list attachment_string sentinels
  then Ok (None, None, None)
  else
    let parts := Str.split pipe_sep attachment_string in
    if 3 <=? length parts then
      let! p0 := getitem parts 0 in
      let file_type := Str.strip p0 in
      let! p1 := getitem parts 1 in
      let file_name := Str.strip p1 in
      let! p2 := getitem parts 2 in
      let file_url := Str.strip p2 in
      Ok (Some file_type, Some file_name, Some file_url)
    else
      Ok (None, Some attachment_string, None).

End V1.


(** * os.path

    The functions of Python's [posixpath] that the scripts call. *)

Module Path.

Definition sep : N := 0x2F%N.     (* "/" *)
Definition extsep : N := 0x2E%N.  (* "." *)

(** [s.rfind(c)] for a one-character [c]: the index of the last [c] in
    [s], or [-1]. *)
Fixpoint rfind_from (i : Z) (found : Z) (c : char) (s : pystr) : Z :=
  match s with
  | [] => found
  | x :: s' => rfind_from (i + 1) (if (x =? c)%N then i else found) c s'
  end.

Definition rfind (c : char) (s : pystr) : Z := rfind_from 0 (-1) c s.

(** [p[a:b]] for [0 <= a]. *)
Definition slice (p : pystr) (a b : Z) : pystr :=
  take (Z.to_nat (b - a)) (drop (Z.to_nat a) p).

(** [os.path.splitext(p)]: the extension starts at the last dot of the
    last component, unless only dots come before it in that component
    (the [while filenameIndex < dotIndex] loop looks for a code point that
    is not a dot). *)
Definition splitext (p : pystr) : pystr * pystr :=
  let sepIndex := rfind sep p in
  let dotIndex := rfind extsep p in
  if (sepIndex <? dotIndex)%Z
     && existsb (λ c, negb (c =? extsep)%N) (slice p (sepIndex + 1) dotIndex)
  then (take (Z.to_nat dotIndex) p, drop (Z.to_nat dotIndex) p)
  else (p, []).

(** [os.path.join(a, b)]. *)
Definition join (a b : pystr) : pystr :=
  if Str.startswith b [sep] then b
  else if negb (Str.truthy a) || bool_decide (last a = Some sep) then a ++ b
  else a ++ [sep] ++ b.

(** [os.path.basename(p)]. *)
Definition basename (p : pystr) : pystr :=
  drop (Z.to_nat (rfind sep p + 1)) p.

End Path.

(** * File names (download_student_files.py) *)

Definition underscore : pystr := Str.lit "_".

(** The nine characters Windows forbids in a file name: less-than,
    greater-than, colon, double quote, slash, backslash, bar, question mark
    and star. *)
Definition invalid_chars : pystr :=
  [0x3C; 0x3E; 0x3A; 0x22; 0x2F; 0x5C; 0x7C; 0x3F; 0x2A]%N.

Definition sanitize_filename (filename : pystr) : pystr :=
  let filename :=
    foldl (λ filename char, Str.replace_char char underscore filename)
      filename invalid_chars in
  let filename :=
    if 200 <? length filename then take 200 filename else filename in
  Str.strip filename.

Definition type_mapping : gmap pystr pystr :=
  list_to_map
    [ (Str.lit "application/pdf", Str.lit ".pdf");
      (Str.lit "application/haansofthwp", Str.lit ".hwp");
      (Str.lit "application/haansofthwpx", Str.lit ".hwpx");
      (Str.lit "application/msword", Str.lit ".doc");
      (Str.lit
         "application/vnd.openxmlformats-officedocument.wordprocessingml.document",
       Str.lit ".docx");
      (Str.lit "text/plain", Str.lit ".txt");
      (Str.lit "image/jpeg", Str.lit ".jpg");
      (Str.lit "image/png", Str.lit ".png");
      (Str.lit "image/gif", Str.lit ".gif") ].

(** [type_mapping.get(file_type, '')]; [file_type] may be [None]. *)
Definition get_file_extension_from_type (file_type : option pystr) : pystr :=
  match file_type with
  | Some t => default [] (type_mapping !! t)
  | None => []
  end.


(** * The JSON report

    A report as [json.load] returns it, in the shape the scripts read:
    [{"statsByMember": [{"member": {"displayName": ...},
    "assignments": [{"subject": ..., "submitSubject": ...,
    "submitAttachments": ..., "submitCreated": ..., "submitReview": ...}]}]}].
    A key may be missing: its field is then [None]. *)

Record assignment : Type := {
  subject : option pystr;
  submitSubject : option pystr;
  submitAttachments : option pystr;
  submitCreated : option pystr;
  submitReview : option pystr
}.

Record member_info : Type := { displayName : option pystr }.

Record member_data : Type := {
  member : option member_info;
  assignments : option (list assignment)
}.

(** [statsByMember] is [Some] when the key is there and holds a list. *)
Record json_data : Type := { statsByMember : option (list member_data) }.

(** * The extraction pipeline (extract_student_assignment*.py) *)

(** The dictionary stored for one recorded submission. *)
Record assignment_info : Type := {
  info_subject : pystr;
  info_submit_subject : pystr;
  info_file_type : option pystr;
  info_file_name : option pystr;
  info_file_url : option pystr;
  info_submit_created : pystr;
  info_submit_review : pystr
}.

#[global] Instance assignment_info_eq_dec : EqDecision assignment_info.
Proof. solve_decision. Defined.

(** The defaults of the [.get] calls. *)
Definition no_subject : pystr :=
  [0xACFC; 0xC81C; 0xBA85; 0x20; 0xC5C6; 0xC74C]%N.
(* "과제명 없음" *)
Definition no_submit_subject : pystr :=
  [0xC81C; 0xCD9C; 0x20; 0xC81C; 0xBAA9; 0x20; 0xC5C6; 0xC74C]%N.
(* "제출 제목 없음" *)
Definition no_date : pystr := [0xB0A0; 0xC9DC; 0x20; 0xC5C6; 0xC74C]%N.
(* "날짜 없음" *)
Definition no_review : pystr := [0xD6C4; 0xAE30; 0x20; 0xC5C6; 0xC74C]%N.
(* "후기 없음" *)
Definition no_name : pystr := [0xC774; 0xB984; 0x20; 0xC5C6; 0xC74C]%N.
(* "이름 없음" *)

(** [student_assignments], a [defaultdict(list)] from student name to the
    submissions recorded for that name.  Its readers only sort its keys,
    take its size and look names up. *)
Abbreviation student_assignments := (gmap pystr (list assignment_info)).

(** The test ['submitAttachments' in assignment and
    assignment['submitAttachments'] not in ["첨부없음", "-"]]: the descriptor
    to parse, when the test lets the assignment through. *)
Definition submitted_attachment (a : assignment) : option pystr :=
  match submitAttachments a with
  | Some attachment => if negb (Str.in_list attachment sentinels)
                       then Some attachment else None
  | None => None
  end.

Section Extraction.

(** The parser in use: [V1.extract_file_info_from_attachment] in the first
    two scripts, [extract_file_info_from_attachment] in v4. *)
Variable parse : pystr → res file_info.

(** [student_assignments[student_name].append(assignment_info)]. *)
Definition append_info (student_name : pystr) (info : assignment_info)
    (sa : student_assignments) : student_assignments :=
  <[student_name := default [] (sa !! student_name) ++ [info]]> sa.

(** The body of [for assignment in assignments]. *)
Definition record_assignment (student_name : pystr) (a : assignment)
    (sa : student_assignments) : res student_assignments :=
  match submitted_attachment a with
  | Some attachment =>
      let! (file_type, file_name, file_url) := parse attachment in
      let info := {|
        info_subject := default no_subject (subject a);
        info_submit_subject := default no_submit_subject (submitSubject a);
        info_file_type := file_type;
        info_file_name := file_name;
        info_file_url := file_url;
        info_submit_created := default no_date (submitCreated a);
        info_submit_review := default no_review (submitReview a)
      |} in
      Ok (append_info student_name info sa)
  | None => Ok sa
  end.

Fixpoint record_assignments (student_name : pystr) (l : list assignment)
    (sa : student_assignments) : res student_assignments :=
  match l with
  | [] => Ok sa
  | a :: l' =>
      let! sa := record_assignment student_name a sa in
      record_assignments student_name l' sa
  end.

(** The body of [for member_data in data['statsByMember']]. *)
Definition record_member (md : member_data) (sa : student_assignments)
    : res student_assignments :=
  match member md with
  | None => Ok sa
  | Some member_info =>
      let student_name := default no_name (displayName member_info) in
      let assignments := default [] (assignments md) in
      match assignments with
      | [] => Ok sa
      | _ :: _ => record_assignments student_name assignments sa
      end
  end.

Fixpoint record_members (l : list member_data) (sa : student_assignments)
    : res student_assignments :=
  match l with
  | [] => Ok sa
  | md :: l' =>
      let! sa := record_member md sa in
      record_members l' sa
  end.

(** [extract_student_assignments_from_json], after [json.load]. *)
Definition extract_student_assignments (data : json_data)
    : res student_assignments :=
  match statsByMember data with
  | Some members => record_members members ∅
  | None => Ok ∅
  end.

End Extraction.

(** ** The CSV file *)

(** One data row: the student's name and the seven columns taken from the
    stored dictionary. *)
Definition csv_row : Type := pystr * assignment_info.

(** [sorted(student_assignments.keys())]. *)
Definition sorted_keys (sa : student_assignments) : list pystr :=
  merge_sort Str.le (map_to_list sa).*1.

(** The rows [create_csv_file] writes after the header. *)
Definition create_csv_file (sa : student_assignments) : list csv_row :=
  student_name ← sorted_keys sa;
  assignment ← default [] (sa !! student_name);
  [(student_name, assignment)].

(** [sum(len(assignments) for assignments in student_assignments.values())]. *)
Definition submissions_count (sa : student_assignments) : nat :=
  sum_list (length <$> (map_to_list sa).*2).

(** * The environment

    What the scripts get from outside: the content of the JSON files, the
    answers of the HTTP server, Python's [urlparse], and whether the
    operating system lets a path be created. *)

(** How one pass through the [try] block of [download_file] ends:
    - [Fetched]: the request succeeded and every chunk was written;
    - [RequestException created]: [requests.get], [raise_for_status] or
      [iter_content] raised a [requests.exceptions.RequestException]
      (timeout, connection error, error status);
    - [OtherException created]: any other [Exception] was raised ([open]
      refused, a write failed, a bad [content-length]).
    [created] tells whether [open(file_path, 'wb')] had already run, so that
    the path exists afterwards. *)
Inductive outcome : Type :=
  | Fetched
  | RequestException (created : bool)
  | OtherException (created : bool).

Record env : Type := {
  (** [open] and [json.load] on a path *)
  read_json : pystr → res json_data;
  (** the outcome of the [n]-th HTTP attempt of the run, asked for [url] *)
  http : nat → pystr → outcome;
  (** [urlparse(url).path]; [urlparse] raises [ValueError] on some inputs *)
  urlparse_path : pystr → res pystr;
  (** whether [os.makedirs(path)] / [open(path, 'w')] succeeds *)
  creatable : pystr → bool
}.

(** * The main loop of extract_student_assignment_v4.py *)

Inductive status : Type :=
  | Success            (* "성공" *)
  | NoData             (* "데이터 없음" *)
  | Error (e : exn).   (* f"오류: {str(e)}" *)

Record processing_result : Type := {
  filename : pystr;
  students : nat;
  submissions : nat;
  result_status : status
}.

Record main_state : Type := {
  processing_results : list processing_result;
  detailed_data : gmap pystr student_assignments;
  (** the CSV files written so far: path and data rows *)
  csv_files : gmap pystr (list csv_row)
}.

Definition results_folder : pystr := Str.lit "./results".
Definition csv_suffix : pystr := Str.lit ".csv".

(** [extract_student_assignments_from_json]: read the file, then traverse. *)
Definition extract_student_assignments_from_json
    (parse : pystr → res file_info) (E : env) (json_file_path : pystr)
    : res student_assignments :=
  let! data := read_json E json_file_path in
  extract_student_assignments parse data.

(** The [try] block of the loop in [main]. *)
Definition try_file (E : env) (json_file filename : pystr) (st : main_state)
    : res main_state :=
  let! student_assignments :=
    extract_student_assignments_from_json
      extract_file_info_from_attachment E json_file in
  let base_filename := (Path.splitext filename).1 in
  let csv_output_file :=
    Path.join results_folder (base_filename ++ csv_suffix) in
  let students_count := size student_assignments in
  let submissions_count := submissions_count student_assignments in
  let! (csvs, status) :=
    if bool_decide (student_assignments ≠ ∅) then
      if creatable E csv_output_file
      then Ok (<[csv_output_file := create_csv_file student_assignments]>
                 (csv_files st), Success)
      else Raise OSError
    else Ok (csv_files st, NoData) in
  Ok {| processing_results :=
          processing_results st ++
          [ {| filename := filename; students := students_count;
               submissions := submissions_count; result_status := status |} ];
        detailed_data := <[filename := student_assignments]> (detailed_data st);
        csv_files := csvs |}.

(** The body of [for json_file in sorted(json_files)]: the [try] block and
    its [except Exception] handler. *)
Definition process_file (E : env) (st : main_state) (json_file : pystr)
    : main_state :=
  let filename := Path.basename json_file in
  match try_file E json_file filename st with
  | Ok st' => st'
  | Raise e =>
      {| processing_results :=
           processing_results st ++
           [ {| filename := filename; students := 0; submissions := 0;
                result_status := Error e |} ];
         detailed_data := detailed_data st;
         csv_files := csv_files st |}
  end.

Definition empty_state : main_state :=
  {| processing_results := []; detailed_data := ∅; csv_files := ∅ |}.

(** The loop of [main] over the files [glob] found. *)
Definition main_loop (E : env) (json_files : list pystr) : main_state :=
  foldl (process_file E) empty_state (merge_sort Str.le json_files).

(** * The download pipeline (download_student_files.py) *)

(** What the run does to the outside, in order. *)
Inductive event : Type :=
  | Request (url file_path : pystr)   (* [requests.get(url, ...)] *)
  | Sleep (seconds : Q).              (* [time.sleep(seconds)] *)

Record world : Type := {
  fs : list pystr;       (* the paths that exist *)
  requests : nat;        (* HTTP attempts made so far *)
  trace : list event
}.

Definition path_exists (w : world) (path : pystr) : bool :=
  bool_decide (path ∈ fs w).

Definition create_path (path : pystr) (w : world) : world :=
  {| fs := path :: fs w; requests := requests w; trace := trace w |}.

Definition sleep (seconds : Q) (w : world) : world :=
  {| fs := fs w; requests := requests w;
     trace := trace w ++ [Sleep seconds] |}.

Definition created (o : outcome) : bool :=
  match o with
  | Fetched => true
  | RequestException c | OtherException c => c
  end.

(** One pass through the [try] block of [download_file]. *)
Definition attempt_download (E : env) (url file_path : pystr) (w : world)
    : outcome * world :=
  let o := http E (requests w) url in
  (o, {| fs := if created o then file_path :: fs w else fs w;
         requests := S (requests w);
         trace := trace w ++ [Request url file_path] |}).

(** [2 ** attempt] seconds. *)
Definition backoff (attempt : nat) : Q := inject_Z (2 ^ Z.of_nat attempt).

(** [for attempt in range(max_retries)] in [download_file], over the
    attempt numbers still to come. *)
Fixpoint download_attempts (E : env) (url file_path : pystr)
    (max_retries : nat) (attempts : list nat) (w : world) : bool * world :=
  match attempts with
  | [] => (false, w)
  | attempt :: attempts' =>
      let '(o, w) := attempt_download E url file_path w in
      match o with
      | Fetched => (true, w)
      | RequestException _ =>
          let w :=
            if attempt <? max_retries - 1 then sleep (backoff attempt) w
            else w in
          download_attempts E url file_path max_retries attempts' w
      | OtherException _ => (false, w)
      end
  end.

Definition download_file (E : env) (url file_path : pystr)
    (max_retries : nat) (w : world) : bool * world :=
  download_attempts E url file_path max_retries (seq 0 max_retries) w.

(** ** Computations that read and change the world

    [None] stands for a loop that has not finished within its fuel,
    [Raise] for an exception nobody caught. *)
Definition M (A : Type) : Type := world → option (res A * world).

Definition ret {A} (a : A) : M A := λ w, Some (Ok a, w).

Definition raise {A} (e : exn) : M A := λ w, Some (Raise e, w).

Definition bind {A B} (m : M A) (k : A → M B) : M B := λ w,
  match m w with
  | Some (Ok a, w') => k a w'
  | Some (Raise e, w') => Some (Raise e, w')
  | None => None
  end.

Definition lift {A} (r : res A) : M A := λ w, Some (r, w).

Definition modify (f : world → world) : M unit := λ w, Some (Ok tt, f w).

Notation "'let*' x := m 'in' k" := (bind m (λ x, k))
  (at level 10, x pattern, m at level 100, k at level 200) : res_scope.

(** [if not os.path.exists(path): os.makedirs(path)]. *)
Definition ensure_folder (E : env) (path : pystr) : M unit := λ w,
  if path_exists w path then ret tt w
  else if creatable E path then modify (create_path path) w
  else raise OSError w.

(** [with open(path, 'w') as f: f.write(...)]. *)
Definition write_file (E : env) (path : pystr) : M unit := λ w,
  if creatable E path then modify (create_path path) w
  else raise OSError w.

(** ** File names *)

(** [get_file_extension_from_url]. *)
Definition get_file_extension_from_url (E : env) (url : pystr) : res pystr :=
  let! path := urlparse_path E url in
  if bool_decide (Path.extsep ∈ path) then Ok (Path.splitext path).2
  else Ok [].

Definition assignment_prefix : pystr := [0xACFC; 0xC81C; 0x5F]%N.
(* "과제_" *)
Definition info_suffix : pystr :=
  [0x5F; 0xC815; 0xBCF4; 0x2E; 0x74; 0x78; 0x74]%N.
(* "_정보.txt" *)
Definition no_name_folder : pystr := [0xC774; 0xB984; 0x5F; 0xC5C6; 0xC74C]%N.
(* "이름_없음" *)

(** The name to save under, before collisions are looked at. *)
Definition choose_filename (E : env) (i : nat)
    (file_type file_name : option pystr) (file_url : pystr) : res pystr :=
  let clean_filename :=
    match file_name with
    | Some ((_ :: _) as file_name) => sanitize_filename file_name
    | _ => assignment_prefix ++ Str.of_nat (i + 1)
    end in
  if negb (Str.truthy (Path.splitext clean_filename).2) then
    let! ext :=
      match get_file_extension_from_type file_type with
      | (_ :: _) as ext => Ok ext
      | [] => get_file_extension_from_url E file_url
      end in
    if Str.truthy ext then Ok (clean_filename ++ ext) else Ok clean_filename
  else Ok clean_filename.

(** [while os.path.exists(file_path)]: the loop that looks for a free name.
    [fuel] bounds the number of tests of the condition. *)
Fixpoint unique_path (fuel : nat) (w : world)
    (student_folder original_filename : pystr) (counter : nat)
    (clean_filename file_path : pystr) : option (pystr * pystr) :=
  match fuel with
  | O => None
  | S fuel =>
      if path_exists w file_path then
        let '(name, ext) := Path.splitext original_filename in
        let clean_filename := name ++ underscore ++ Str.of_nat counter ++ ext in
        let file_path := Path.join student_folder clean_filename in
        unique_path fuel w student_folder original_filename (counter + 1)
          clean_filename file_path
      else Some (clean_filename, file_path)
  end.

(** The collision handling of [process_json_file]: [counter = 1],
    [original_filename = clean_filename], the first [file_path], then the
    loop.  The names tried after the first differ from one another, so with
    [n] existing paths the loop makes at most [n + 2] tests. *)
Definition resolve_collision (w : world)
    (student_folder clean_filename : pystr) : option (pystr * pystr) :=
  let counter := 1 in
  let original_filename := clean_filename in
  let file_path := Path.join student_folder clean_filename in
  unique_path (length (fs w) + 2) w student_folder original_filename counter
    clean_filename file_path.

(** ** Statistics *)

(** [download_stats], a dictionary from the four counter names to counts. *)
Abbreviation stats := (gmap string nat).

Definition new_stats : stats :=
  {[ "total_files" := 0; "successful_downloads" := 0;
     "failed_downloads" := 0; "students_processed" := 0 ]}%string.

(** [d.get(key, 0)] *)
Definition get0 (d : stats) (key : string) : nat := default 0 (d !! key).

(** [d[key] += 1] *)
Definition incr (key : string) (d : stats) : stats :=
  <[key := get0 d key + 1]> d.

(** The variables the assignment loop updates. *)
Record counters : Type := {
  download_stats : stats;
  student_files : nat;
  student_downloads : nat
}.

(** [not file_url or not file_url.startswith('https://')] *)
Definition invalid_url (file_url : option pystr) : bool :=
  match file_url with
  | None => true
  | Some file_url =>
      negb (Str.truthy file_url) || negb (Str.startswith file_url https)
  end.

(** The body of [for i, assignment in enumerate(assignments)]. *)
Definition process_assignment (E : env) (student_folder : pystr) (i : nat)
    (a : assignment) (c : counters) : M counters :=
  match submitted_attachment a with
  | None => ret c
  | Some attachment =>
      let* (file_type, file_name, file_url) :=
        lift (extract_file_info_from_attachment attachment) in
      match file_url with
      | Some url =>
          if invalid_url file_url then ret c
          else
            let files := student_files c + 1 in
            let d := incr "total_files" (download_stats c) in
            let* clean_filename :=
              lift (choose_filename E i file_type file_name url) in
            let* (clean_filename, file_path) :=
              (λ w, match resolve_collision w student_folder clean_filename
                    with
                    | Some r => ret r w
                    | None => None
                    end) in
            let* ok := (λ w, let '(ok, w) := download_file E url file_path 3 w
                             in ret ok w) in
            let* c :=
              if ok : bool then
                let info_file :=
                  Path.join student_folder
                    ((Path.splitext clean_filename).1 ++ info_suffix) in
                let* _ := write_file E info_file in
                ret {| download_stats := incr "successful_downloads" d;
                       student_files := files;
                       student_downloads := student_downloads c + 1 |}
              else
                ret {| download_stats := incr "failed_downloads" d;
                       student_files := files;
                       student_downloads := student_downloads c |} in
            let* _ := modify (sleep (1 # 2)%Q) in
            ret c
      | None => ret c
      end
  end.

Fixpoint process_assignments (E : env) (student_folder : pystr) (i : nat)
    (l : list assignment) (c : counters) : M counters :=
  match l with
  | [] => ret c
  | a :: l' =>
      let* c := process_assignment E student_folder i a c in
      process_assignments E student_folder (S i) l' c
  end.

(** The body of [for member_data in data['statsByMember']]; [d] is
    [download_stats]. *)
Definition process_member (E : env) (class_folder : pystr) (md : member_data)
    (d : stats) : M stats :=
  match member md with
  | None => ret d
  | Some member_info =>
      let student_name := default no_name_folder (displayName member_info) in
      let student_folder :=
        Path.join class_folder (sanitize_filename student_name) in
      let* _ := ensure_folder E student_folder in
      let assignments := default [] (assignments md) in
      match assignments with
      | [] => ret d
      | _ :: _ =>
          let* c :=
            process_assignments E student_folder 0 assignments
              {| download_stats := d;
                 student_files := 0; student_downloads := 0 |} in
          if 0 <? student_files c
          then ret (incr "students_processed" (download_stats c))
          else ret (download_stats c)
      end
  end.

Fixpoint process_members (E : env) (class_folder : pystr)
    (l : list member_data) (d : stats) : M stats :=
  match l with
  | [] => ret d
  | md :: l' =>
      let* d := process_member E class_folder md d in
      process_members E class_folder l' d
  end.

(** [process_json_file]: a file that cannot be read gives [{}]. *)
Definition process_json_file (E : env)
    (json_file_path base_download_folder : pystr) : M stats :=
  match read_json E json_file_path with
  | Raise _ => ret ∅
  | Ok data =>
      let filename := Path.basename json_file_path in
      let class_name := (Path.splitext filename).1 in
      let class_folder := Path.join base_download_folder class_name in
      let* _ := ensure_folder E class_folder in
      match statsByMember data with
      | Some members => process_members E class_folder members new_stats
      | None => ret new_stats
      end
  end.

(** [for key in total_stats: total_stats[key] += file_stats.get(key, 0)] *)
Definition accumulate (total_stats file_stats : stats) : stats :=
  map_imap (λ key n, Some (n + get0 file_stats key)) total_stats.

Definition download_folder : pystr := Str.lit "downloads".

Fixpoint process_files (E : env) (json_files : list pystr)
    (total_stats : stats) : M stats :=
  match json_files with
  | [] => ret total_stats
  | json_file :: json_files' =>
      let* file_stats := process_json_file E json_file download_folder in
      process_files E json_files' (accumulate total_stats file_stats)
  end.

(** [main], given the files [glob] found; the result is [total_stats]. *)
Definition download_main (E : env) (json_files : list pystr) : M stats :=
  let* _ := ensure_folder E download_folder in
  match json_files with
  | [] => ret new_stats
  | _ :: _ => process_files E (merge_sort Str.le json_files) new_stats
  end.

(** * Reports and values used in the statements *)

(** The report with one member, [student_name], whose one assignment has
    the descriptor [attachment] and no other key. *)
Definition one_assignment_report (student_name attachment : pystr)
    : json_data :=
  {| statsByMember := Some
       [ {| member := Some {| displayName := Some student_name |};
            assignments := Some
              [ {| subject := None; submitSubject := None;
                   submitAttachments := Some attachment;
                   submitCreated := None; submitReview := None |} ] |} ] |}.

(** The row stored for a descriptor that parsed to three absent fields. *)
Definition blank_info : assignment_info :=
  {| info_subject := no_subject; info_submit_subject := no_submit_subject;
     info_file_type := None; info_file_name := None; info_file_url := None;
     info_submit_created := no_date; info_submit_review := no_review |}.

Definition is_request_exception (o : outcome) : Prop :=
  match o with RequestException _ => True | _ => False end.

(** What [download_file] should do to the outside when it makes [k]
    attempts, the first of them numbered [attempt]: a request, then for each
    further attempt a sleep of [2 ** attempt] seconds and a request; nothing
    after the last request. *)
Fixpoint schedule (url file_path : pystr) (attempt k : nat) : list event :=
  match k with
  | 0 => []
  | S k' =>
      Request url file_path ::
      match k' with
      | 0 => []
      | S _ => Sleep (backoff attempt) :: schedule url file_path (S attempt) k'
      end
  end.

(** A server whose first [fails] answers are request failures and whose
    later answers are complete bodies; nothing else in this environment
    fails, apart from reading JSON files. *)
Definition flaky_env (fails : nat) : env :=
  {| read_json := λ _, Raise JSONReadError;
     http := λ n _, if n <? fails then RequestException false else Fetched;
     urlparse_path := λ _, Ok [];
     creatable := λ _, true |}.

Definition empty_world : world := {| fs := []; requests := 0; trace := [] |}.

(** The sleeps among some events. *)
Definition sleeps (l : list event) : list Q :=
  l ≫= (λ e, match e with Sleep s => [s] | Request _ _ => [] end).

(** The names the collision policy goes through for a desired name:
    [name.ext], then [name_1.ext], [name_2.ext], ... *)
Definition candidate (desired : pystr) (counter : nat) : pystr :=
  match counter with
  | 0 => desired
  | S _ =>
      (Path.splitext desired).1 ++ underscore ++ Str.of_nat counter
      ++ (Path.splitext desired).2
  end.

Definition candidate_path (folder desired : pystr) (counter : nat) : pystr :=
  Path.join folder (candidate desired counter).

(** A report with two members: [name1] with the two assignments [a1] and
    [a2], and [name2] with the one assignment [a3]. *)
Definition two_member_report (name1 name2 : pystr) (a1 a2 a3 : assignment)
    : json_data :=
  {| statsByMember := Some
       [ {| member := Some {| displayName := Some name1 |};
            assignments := Some [a1; a2] |};
         {| member := Some {| displayName := Some name2 |};
            assignments := Some [a3] |} ] |}.

(** An assignment with a descriptor and no other key. *)
Definition attachment_only (attachment : pystr) : assignment :=
  {| subject := None; submitSubject := None;
     submitAttachments := Some attachment;
     submitCreated := None; submitReview := None |}.

(** The entry [main] records for a file whose processing raised [e]. *)
Definition failed_result (json_file : pystr) (e : exn) : processing_result :=
  {| filename := Path.basename json_file; students := 0; submissions := 0;
     result_status := Error e |}.

(** The invariant of the download statistics. *)
Definition stats_balanced (d : stats) : Prop :=
  get0 d "successful_downloads" + get0 d "failed_downloads"
  = get0 d "total_files".

(** An assignment whose attachment passes the URL validation of the download
    traversal: it passes the test on [submitAttachments], and its parsed URL
    is there and starts with ["https://"]. *)
Definition downloadable (a : assignment) : bool :=
  match submitted_attachment a with
  | Some attachment =>
      match extract_file_info_from_attachment attachment with
      | Ok (_, _, file_url) => negb (invalid_url file_url)
      | Raise _ => false
      end
  | None => false
  end.

(** The downloadable attachments of a member the traversal does not skip,
    and of a report. *)
Definition member_downloadables (md : member_data) : nat :=
  match member md with
  | Some _ => length (filter (λ a, downloadable a = true)
                        (default [] (assignments md)))
  | None => 0
  end.

Definition report_downloadables (data : json_data) : nat :=
  sum_list (member_downloadables <$> default [] (statsByMember data)).

(** [d'] counts [n] more files than [d], each of them once more as a
    success or as a failure. *)
Definition counts_more (n : nat) (d d' : stats) : Prop :=
  get0 d' "total_files" = get0 d "total_files" + n
  ∧ get0 d' "successful_downloads" + get0 d' "failed_downloads"
    = get0 d "successful_downloads" + get0 d "failed_downloads" + n.

(** An environment in which no path is refused and [urlparse] accepts every
    URL. *)
Definition benign (E : env) : Prop :=
  (∀ path, creatable E path = true)
  ∧ (∀ url, ∃ path, urlparse_path E url = Ok path).

(** An environment with one report: Kim handed in two files under the same
    name, Lee nothing.  The first HTTP attempt fails, the later ones
    succeed. *)
Definition demo_report : json_data :=
  two_member_report (Str.lit "Kim") (Str.lit "Lee")
    (attachment_only
       (Str.lit "application/pdf | report.pdf | https://x/a/report.pdf"))
    (attachment_only
       (Str.lit "application/pdf | report.pdf | https://x/b/report.pdf"))
    (attachment_only no_attachment).

Definition demo_env : env :=
  {| read_json := λ _, Ok demo_report;
     http := λ n _, if n <? 1 then RequestException false else Fetched;
     urlparse_path := λ _, Ok [];
     creatable := λ _, true |}.

(** The four counters of a dictionary of statistics, in the order total,
    successes, failures, students. *)
Definition counters_of (d : stats) : nat * nat * nat * nat :=
  (get0 d "total_files", get0 d "successful_downloads",
   get0 d "failed_downloads", get0 d "students_processed").

(** Sample descriptors: one with four segments and a second line in the
    third, one without separators and with the URL on its second line. *)
Definition sample_segments : pystr :=
  Str.lit "pdf | hw1.pdf |  https://x/y.pdf" ++ newline
  ++ Str.lit "application/pdf | tail".

Definition sample_lines : pystr :=
  Str.lit "just a url" ++ newline ++ Str.lit "  https://host/f" ++ newline
  ++ Str.lit "extra".

Definition sample_url : pystr := Str.lit "https://x/y.pdf".
Definition sample_folder : pystr := Str.lit "downloads/c/s".
Definition sample_report_path : pystr := Str.lit "downloads/c/s/report.pdf".
Definition sample_json : pystr := Str.lit "rawdata/1st_class.json".

(** A world in which [report.pdf] exists in the sample folder. *)
Definition sample_world : world :=
  {| fs := [sample_report_path]; requests := 0; trace := [] |}.

(** * Further notions used in the statements *)

(** A string [str.strip()] leaves alone. *)
Definition trimmed (s : pystr) : Prop := Str.strip s = s.

Definition bar : N := 0x7C%N.  (* the character of the separator *)

(** A descriptor as the report writes it: type, name and URL joined by the
    separator. *)
Definition descriptor (file_type file_name file_url : pystr) : pystr :=
  file_type ++ pipe_sep ++ file_name ++ pipe_sep ++ file_url.

(** The name [process_json_file] starts from for the assignment at position
    [i]: the sanitized file name when the parser found a non-empty one, the
    numbered default otherwise. *)
Definition base_filename (i : nat) (file_name : option pystr) : pystr :=
  match file_name with
  | Some ((_ :: _) as file_name) => sanitize_filename file_name
  | _ => assignment_prefix ++ Str.of_nat (i + 1)
  end.

(** An extension: nothing, or a dot and what follows. *)
Definition extension_like (ext : pystr) : Prop :=
  ext = [] ∨ ∃ e, ext = Path.extsep :: e.

(** ** What the extraction traversal should record *)

(** The dictionary recorded for an assignment, if its [submitAttachments]
    passes the test. *)
Definition recorded_info (parse : pystr → res file_info) (a : assignment)
    : option assignment_info :=
  match submitted_attachment a with
  | Some attachment =>
      match parse attachment with
      | Ok (file_type, file_name, file_url) =>
          Some {| info_subject := default no_subject (subject a);
                  info_submit_subject :=
                    default no_submit_subject (submitSubject a);
                  info_file_type := file_type;
                  info_file_name := file_name;
                  info_file_url := file_url;
                  info_submit_created := default no_date (submitCreated a);
                  info_submit_review := default no_review (submitReview a) |}
      | Raise _ => None
      end
  | None => None
  end.

(** The dictionaries a member record contributes to the student called
    [name]: those of its assignments, in order, when it has the [member] key
    and its display name (or the default name) is [name]. *)
Definition member_infos (parse : pystr → res file_info) (name : pystr)
    (md : member_data) : list assignment_info :=
  match member md with
  | Some member_info =>
      if bool_decide (default no_name (displayName member_info) = name)
      then omap (recorded_info parse) (default [] (assignments md))
      else []
  | None => []
  end.

Definition student_infos (parse : pystr → res file_info) (name : pystr)
    (data : json_data) : list assignment_info :=
  default [] (statsByMember data) ≫= member_infos parse name.

(** The assignments of a report that pass the test on [submitAttachments],
    in the member records that have the [member] key. *)
Definition member_submissions (md : member_data) : nat :=
  match member md with
  | Some _ =>
      length (filter (λ a, is_Some (submitted_attachment a))
                (default [] (assignments md)))
  | None => 0
  end.

Definition report_submissions (data : json_data) : nat :=
  sum_list (member_submissions <$> default [] (statsByMember data)).

(** Adding some dictionaries to a student, as the appends of the traversal
    do one by one. *)
Definition add_infos (name : pystr) (infos : list assignment_info)
    (sa : student_assignments) : student_assignments :=
  match infos with
  | [] => sa
  | _ :: _ => <[name := default [] (sa !! name) ++ infos]> sa
  end.

(** No student without a submission. *)
Definition no_empty_student (sa : student_assignments) : Prop :=
  ∀ name infos, sa !! name = Some infos → infos ≠ [].

(** An entry of [processing_results] with the status of success. *)
Definition is_success (r : processing_result) : bool :=
  match result_status r with Success => true | _ => false end.

(** * The outside during the download traversal *)

(** The paths the requests among some events write to. *)
Definition request_paths (l : list event) : list pystr :=
  l ≫= (λ e, match e with Request _ file_path => [file_path] | Sleep _ => [] end).

(** [w'] is what [w] has become after the events [evs]: they are what the
    trace has more, each request among them is counted, no path is gone, and
    no request among them writes to a path that was there in [w]. *)
Definition after (w : world) (evs : list event) (w' : world) : Prop :=
  trace w' = trace w ++ evs
  ∧ requests w' = requests w + length (request_paths evs)
  ∧ fs w ⊆ fs w'
  ∧ ∀ file_path, file_path ∈ request_paths evs → file_path ∉ fs w.

Definition is_ok {A} (r : res A) : Prop :=
  match r with Ok _ => True | Raise _ => False end.

(** A run from [w] to [w'] with the result [r], over [n] files to fetch:
    at most three requests for each, and at least one when the run came to
    its end. *)
Definition ran {A} (n : nat) (w : world) (r : res A) (w' : world) : Prop :=
  ∃ evs, after w evs w'
    ∧ length (request_paths evs) ≤ 3 * n
    ∧ (is_ok r → n ≤ length (request_paths evs)).

(** [class_folder] and [student_folder] of [process_json_file]. *)
Definition class_folder_of (base_download_folder json_file_path : pystr)
    : pystr :=
  Path.join base_download_folder
    (Path.splitext (Path.basename json_file_path)).1.

Definition student_folder_of (class_folder : pystr) (mi : member_info)
    : pystr :=
  Path.join class_folder
    (sanitize_filename (default no_name_folder (displayName mi))).

(** [info_file] of [process_json_file], for the name a file is saved
    under. *)
Definition info_file_of (student_folder clean_filename : pystr) : pystr :=
  Path.join student_folder ((Path.splitext clean_filename).1 ++ info_suffix).

(** The member records with an attachment to fetch. *)
Definition members_with_files (l : list member_data) : nat :=
  length (filter (λ md, 0 < member_downloadables md) l).

(** The attachments to fetch of a report file, none when it cannot be
    read. *)
Definition file_downloadables (E : env) (json_file_path : pystr) : nat :=
  match read_json E json_file_path with
  | Ok data => report_downloadables data
  | Raise _ => 0
  end.

(** A world in which Kim's first report of [demo_env] is there already. *)
Definition kim_world : world :=
  {| fs := [Str.lit "downloads/1st_class/Kim/report.pdf"];
     requests := 0; trace := [] |}.
(** * Properties of the string operations *)

Section StrFacts.

Lemma split_go_nonempty sep skip cur s : Str.split_go sep skip cur s ≠ [].
Proof.
  revert skip cur. induction s as [|c s IH]; intros skip cur; simpl.
  - discriminate.
  - destruct skip; [case_match|]; first discriminate; apply IH.
Qed.

Lemma split_nonempty sep s : Str.split sep s ≠ [].
Proof. apply split_go_nonempty. Qed.

Lemma startswith_app s p : Str.startswith s p = true ↔ ∃ t, s = p ++ t.
Proof.
  revert s. induction p as [|a p IH]; intros s; cbn [Str.startswith].
  { split; [by exists s|done]. }
  destruct s as [|b s]; [split; [done|by intros [t [=]]]|].
  rewrite andb_true_iff, N.eqb_eq, IH. split.
  - intros [-> [t ->]]. by exists t.
  - intros [t [= -> ->]]. split; [done|by exists t].
Qed.

(** Passing over the rest of a separator. *)
Lemma split_go_skip sep k s :
  k ≤ length s →
  Str.split_go sep k [] s = Str.split_go sep 0 [] (drop k s).
Proof.
  revert s. induction k as [|k IH]; intros s Hk; [done|].
  destruct s as [|c s]; cbn in Hk; [lia|]. cbn [Str.split_go drop].
  apply IH. lia.
Qed.

Lemma join_cons sep x l :
  l ≠ [] → Str.join sep (x :: l) = x ++ sep ++ Str.join sep l.
Proof. by destruct l. Qed.

(** Splitting loses nothing: joining the segments with the separator gives
    the string back. *)
Lemma split_go_join sep n : ∀ s cur,
  sep ≠ [] → length s ≤ n →
  Str.join sep (Str.split_go sep 0 cur s) = reverse cur ++ s.
Proof.
  induction n as [|n IH]; intros s cur Hsep Hlen.
  { destruct s; cbn in Hlen; [|lia]. cbn. by rewrite app_nil_r. }
  destruct s as [|c s]; [cbn; by rewrite app_nil_r|].
  cbn [Str.split_go length] in *.
  destruct (Str.startswith (c :: s) sep) eqn:Hstart.
  - apply startswith_app in Hstart as [t Ht].
    destruct sep as [|a sep]; [done|]. injection Ht as -> ->.
    cbn [length Nat.pred]. rewrite split_go_skip by (rewrite length_app; lia).
    rewrite drop_app_length, join_cons by apply split_go_nonempty.
    rewrite IH; [done|done|]. rewrite length_app in Hlen. lia.
  - rewrite IH by (done || lia). by rewrite reverse_cons, <- app_assoc.
Qed.

Lemma split_join sep s : sep ≠ [] → Str.join sep (Str.split sep s) = s.
Proof. intros Hsep. by apply (split_go_join sep (length s)). Qed.

Lemma split_go_newline_head cur s :
  ∃ tl, Str.split_go newline O cur s = (reverse cur ++ first_line s) :: tl.
Proof.
  revert cur. induction s as [|c s IH]; intros cur;
    cbn [Str.split_go Str.startswith newline length Nat.pred first_line].
  - eexists. by rewrite app_nil_r.
  - rewrite andb_true_r, (N.eqb_sym 10%N c).
    destruct (c =? 10)%N eqn:E.
    + eexists. by rewrite app_nil_r.
    + destruct (IH (c :: cur)) as [tl ->]. exists tl.
      by rewrite reverse_cons, <- app_assoc.
Qed.

Lemma split_newline_head s :
  getitem (Str.split newline s) 0 = Ok (first_line s).
Proof.
  unfold Str.split. by destruct (split_go_newline_head [] s) as [tl ->].
Qed.

Lemma first_line_no_newline s : 0x0A%N ∉ first_line s.
Proof.
  induction s as [|c s IH]; simpl; [by apply not_elem_of_nil|].
  destruct (c =? 10)%N eqn:E; [by apply not_elem_of_nil|].
  apply N.eqb_neq in E. rewrite elem_of_cons. intros [Hc|Hin]; [|done].
  by apply E.
Qed.

Lemma eqb_true a b : Str.eqb a b = true ↔ a = b.
Proof. unfold Str.eqb. by rewrite bool_decide_eq_true. Qed.

Lemma in_list_true x l : Str.in_list x l = true ↔ x ∈ l.
Proof.
  unfold Str.in_list. rewrite existsb_exists. split.
  - intros (y & Hy%list_elem_of_In & ->%eqb_true). done.
  - intros Hx. exists x. by rewrite <- list_elem_of_In, eqb_true.
Qed.

Lemma in_list_false x l : Str.in_list x l = false ↔ x ∉ l.
Proof. rewrite <- in_list_true. by destruct (Str.in_list x l). Qed.

Lemma truthy_false s : Str.truthy s = false ↔ s = [].
Proof. by destruct s. Qed.

End StrFacts.

(** The guard of the parser holds exactly for the empty string and the two
    sentinels. *)
Lemma no_file_guard s :
  negb (Str.truthy s) || Str.in_list s sentinels = true
  ↔ s = [] ∨ s ∈ sentinels.
Proof.
  rewrite orb_true_iff, negb_true_iff, truthy_false, in_list_true. done.
Qed.

Lemma no_file_single_segment s :
  s = [] ∨ s ∈ sentinels → length (Str.split pipe_sep s) = 1.
Proof.
  unfold sentinels. rewrite !elem_of_cons, elem_of_nil.
  intros [->|[->|[->|[]]]]; by vm_compute.
Qed.

Example parse_pdf :
  extract_file_info_from_attachment (Str.lit "pdf | hw1.pdf | https://x/y.pdf")
  = Ok (Some (Str.lit "pdf"), Some (Str.lit "hw1.pdf"),
        Some (Str.lit "https://x/y.pdf")).
Proof. vm_compute. reflexivity. Qed.


(** * The path functions on examples *)

Example type_mapping_docx :
  get_file_extension_from_type
    (Some
       (Str.lit
          "application/vnd.openxmlformats-officedocument.wordprocessingml.document"))
  = Str.lit ".docx".
Proof. reflexivity. Qed.
Example splitext_leading_dots :
  Path.splitext (Str.lit "a/..b.c")
  = (Str.lit "a/..b", Str.lit ".c").
Proof. reflexivity. Qed.
Example splitext_hidden :
  Path.splitext (Str.lit "a/.b")
  = (Str.lit "a/.b", []).
Proof. reflexivity. Qed.
Example splitext_dot_in_folder :
  Path.splitext (Str.lit "a.b/c")
  = (Str.lit "a.b/c", []).
Proof. reflexivity. Qed.
Example splitext_report :
  Path.splitext (Str.lit "report.pdf")
  = (Str.lit "report", Str.lit ".pdf").
Proof. reflexivity. Qed.
Example basename_json :
  Path.basename (Str.lit "a/b/c.json")
  = (Str.lit "c.json").
Proof. reflexivity. Qed.
Example join_trailing_sep :
  Path.join (Str.lit "a/") (Str.lit "c.json")
  = (Str.lit "a/c.json").
Proof. reflexivity. Qed.
Example sanitize_example :
  sanitize_filename (Str.lit " a/b:c?.pdf ")
  = (Str.lit "a_b_c_.pdf").
Proof. reflexivity. Qed.
Example splitext_trailing_dot :
  Path.splitext (Str.lit ".a.")
  = (Str.lit ".a", Str.lit ".").
Proof. reflexivity. Qed.
Example splitext_only_dots :
  Path.splitext (Str.lit "...")
  = (Str.lit "...", []).
Proof. reflexivity. Qed.

(** * The string functions on examples *)

Example split_empty_segment :
  Str.split pipe_sep (Str.lit "a |  | b") = [Str.lit "a"; []; Str.lit "b"].
Proof. reflexivity. Qed.

Example split_overlapping :
  Str.split pipe_sep (Str.lit " | | ") = [[]; Str.lit "| "].
Proof. reflexivity. Qed.

Example split_empty_string : Str.split pipe_sep [] = [[]].
Proof. reflexivity. Qed.

Example strip_unicode_spaces :
  Str.strip ([0x3000; 0x09] ++ Str.lit "a b" ++ [0xA0; 0x0A; 0x2003])%N
  = Str.lit "a b".
Proof. reflexivity. Qed.

Example of_nat_12 : Str.of_nat 12 = Str.lit "12".
Proof. reflexivity. Qed.

(** * The attachment parser: the three branches *)

(** A descriptor with three segments is neither empty nor a sentinel. *)
Lemma three_segments_guard (s p0 p1 p2 : pystr) (rest : list pystr) :
  Str.split pipe_sep s = p0 :: p1 :: p2 :: rest →
  negb (Str.truthy s) || Str.in_list s sentinels = false.
Proof.
  intros Hsplit. destruct (negb _ || _) eqn:Hguard; [|done].
  apply no_file_guard, no_file_single_segment in Hguard.
  rewrite Hsplit in Hguard. discriminate.
Qed.

(** The last form of the parser (v4 and the downloader) on a descriptor
    with three segments or more. *)
Lemma v4_three_segments (s p0 p1 p2 : pystr) (rest : list pystr) :
  Str.split pipe_sep s = p0 :: p1 :: p2 :: rest →
  extract_file_info_from_attachment s
  = Ok (Some (Str.strip p0), Some (Str.strip p1),
        Some (Str.strip (first_line (Str.strip p2)))).
Proof.
  intros Hsplit. unfold extract_file_info_from_attachment.
  rewrite (three_segments_guard s p0 p1 p2 rest Hsplit), Hsplit.
  cbn [length Nat.leb getitem lookup list_lookup res_bind].
  by rewrite split_newline_head.
Qed.

(** The first form of the parser (v1 and v2) on such a descriptor: the URL
    is the whole trimmed third segment. *)
Lemma v1_three_segments (s p0 p1 p2 : pystr) (rest : list pystr) :
  Str.split pipe_sep s = p0 :: p1 :: p2 :: rest →
  V1.extract_file_info_from_attachment s
  = Ok (Some (Str.strip p0), Some (Str.strip p1), Some (Str.strip p2)).
Proof.
  intros Hsplit. unfold V1.extract_file_info_from_attachment.
  by rewrite (three_segments_guard s p0 p1 p2 rest Hsplit), Hsplit.
Qed.

(** C1.  A descriptor whose split on [" | "] has three or more segments
    [p0], [p1], [p2], ... (such a descriptor is never empty nor a sentinel).
    The parser of v4 and of the downloader returns the trimmed [p0] as file
    type, the trimmed [p1] as file name, and as URL the text of the trimmed
    [p2] before its first newline, trimmed in its turn; the segments after
    the third play no part.  The parser of v1 and v2 returns the same type
    and name, but as URL the whole trimmed [p2], later lines included: on
    [sample_segments] it returns both lines of the third segment where the
    parser of v4 returns the first line alone. *)
Theorem parse_three_segments :
  (∀ (s p0 p1 p2 : pystr) (rest : list pystr),
     Str.split pipe_sep s = p0 :: p1 :: p2 :: rest →
     extract_file_info_from_attachment s
     = Ok (Some (Str.strip p0), Some (Str.strip p1),
           Some (Str.strip (first_line (Str.strip p2)))))
  ∧ (∀ (s p0 p1 p2 : pystr) (rest : list pystr),
       Str.split pipe_sep s = p0 :: p1 :: p2 :: rest →
       V1.extract_file_info_from_attachment s
       = Ok (Some (Str.strip p0), Some (Str.strip p1), Some (Str.strip p2)))
  ∧ extract_file_info_from_attachment sample_segments
    = Ok (Some (Str.lit "pdf"), Some (Str.lit "hw1.pdf"),
          Some (Str.lit "https://x/y.pdf"))
  ∧ V1.extract_file_info_from_attachment sample_segments
    = Ok (Some (Str.lit "pdf"), Some (Str.lit "hw1.pdf"),
          Some (Str.lit "https://x/y.pdf" ++ newline
                ++ Str.lit "application/pdf")).
Proof.
  split; [exact v4_three_segments|]. split; [exact v1_three_segments|].
  split; reflexivity.
Qed.

Lemma parse_three_segments_witness :
  Str.split pipe_sep sample_segments
  = [ Str.lit "pdf"; Str.lit "hw1.pdf";
      Str.lit " https://x/y.pdf" ++ newline ++ Str.lit "application/pdf";
      Str.lit "tail" ]
  ∧ extract_file_info_from_attachment sample_segments
    = Ok (Some (Str.lit "pdf"), Some (Str.lit "hw1.pdf"),
          Some (Str.lit "https://x/y.pdf"))
  ∧ V1.extract_file_info_from_attachment sample_segments
    = Ok (Some (Str.lit "pdf"), Some (Str.lit "hw1.pdf"),
          Some (Str.lit "https://x/y.pdf" ++ newline
                ++ Str.lit "application/pdf")).
Proof.
  destruct parse_three_segments as (Hv4 & Hv1 & _ & _).
  split; [reflexivity|]. split.
  - apply (Hv4 sample_segments (Str.lit "pdf") (Str.lit "hw1.pdf")
             (Str.lit " https://x/y.pdf" ++ newline
              ++ Str.lit "application/pdf")
             [Str.lit "tail"]).
    reflexivity.
  - apply (Hv1 sample_segments (Str.lit "pdf") (Str.lit "hw1.pdf")
             (Str.lit " https://x/y.pdf" ++ newline
              ++ Str.lit "application/pdf")
             [Str.lit "tail"]).
    reflexivity.
Defined.

(** The URL of the three-segment branch holds no newline. *)
Lemma strip_subseteq s : Str.strip s ⊆ s.
Proof.
  assert (Hl : ∀ t : pystr, Str.lstrip t ⊆ t).
  { induction t as [|c t IH]; simpl; [done|].
    destruct (Str.isspace c); [|done]. intros x Hx. right. by apply IH. }
  unfold Str.strip, Str.rstrip. intros x Hx.
  apply Hl. apply elem_of_reverse. apply Hl. by apply elem_of_reverse.
Qed.

Lemma three_segments_url_one_line (p2 : pystr) :
  0x0A%N ∉ Str.strip (first_line (Str.strip p2)).
Proof. intros H%strip_subseteq. by apply first_line_no_newline in H. Qed.

(** The last form of the parser (v4 and the downloader) on a descriptor
    with fewer than three segments. *)
Lemma v4_fallback (s : pystr) :
  s ≠ [] → s ∉ sentinels →
  length (Str.split pipe_sep s) < 3 →
  extract_file_info_from_attachment s
  = Ok match find (λ line, Str.startswith (Str.strip line) https)
               (Str.split newline s) with
       | Some line => (None, Some s, Some (Str.strip line))
       | None => (None, Some s, None)
       end.
Proof.
  intros Hne Hsent Hlen. unfold extract_file_info_from_attachment.
  destruct (negb _ || _) eqn:Hguard.
  { apply no_file_guard in Hguard. tauto. }
  destruct (Nat.leb_spec 3 (length (Str.split pipe_sep s))); [lia|].
  f_equal.
  induction (Str.split newline s) as [|line lines IH]; cbn [scan_lines find];
    [done|].
  by destruct (Str.startswith (Str.strip line) https).
Qed.

(** The first form of the parser (v1 and v2) on such a descriptor: no line
    is looked at. *)
Lemma v1_fallback (s : pystr) :
  s ≠ [] → s ∉ sentinels → length (Str.split pipe_sep s) < 3 →
  V1.extract_file_info_from_attachment s = Ok (None, Some s, None).
Proof.
  intros Hne Hsent Hlen. unfold V1.extract_file_info_from_attachment.
  destruct (negb _ || _) eqn:Hguard.
  { apply no_file_guard in Hguard. tauto. }
  by destruct (Nat.leb_spec 3 (length (Str.split pipe_sep s))); [lia|].
Qed.

(** C3.  A descriptor that is neither empty nor a sentinel and whose split
    on [" | "] has fewer than three segments.  In the parser of v4 and of
    the downloader, the first of its lines (split on newlines) that starts
    with ["https://"] once trimmed is returned, trimmed, as URL, with the
    whole descriptor as file name and no file type; without such a line the
    URL is absent as well.  The parser of v1 and v2 returns the whole
    descriptor as file name and never a URL: on [sample_lines], whose second
    line is a URL, it returns no URL where the parser of v4 returns that
    line. *)
Theorem parse_fallback :
  (∀ s : pystr,
     s ≠ [] → s ∉ sentinels →
     length (Str.split pipe_sep s) < 3 →
     extract_file_info_from_attachment s
     = Ok match find (λ line, Str.startswith (Str.strip line) https)
                  (Str.split newline s) with
          | Some line => (None, Some s, Some (Str.strip line))
          | None => (None, Some s, None)
          end)
  ∧ (∀ s : pystr,
       s ≠ [] → s ∉ sentinels →
       length (Str.split pipe_sep s) < 3 →
       V1.extract_file_info_from_attachment s = Ok (None, Some s, None))
  ∧ find (λ line, Str.startswith (Str.strip line) https)
      (Str.split newline sample_lines)
    = Some (Str.lit "  https://host/f")
  ∧ extract_file_info_from_attachment sample_lines
    = Ok (None, Some sample_lines, Some (Str.lit "https://host/f"))
  ∧ V1.extract_file_info_from_attachment sample_lines
    = Ok (None, Some sample_lines, None).
Proof.
  split; [exact v4_fallback|]. split; [exact v1_fallback|].
  repeat split; reflexivity.
Qed.

Lemma parse_fallback_witness :
  extract_file_info_from_attachment sample_lines
  = Ok (None, Some sample_lines, Some (Str.lit "https://host/f"))
  ∧ V1.extract_file_info_from_attachment sample_lines
    = Ok (None, Some sample_lines, None).
Proof.
  destruct parse_fallback as (Hv4 & Hv1 & _).
  assert (Hne : sample_lines ≠ []) by discriminate.
  assert (Hsent : sample_lines ∉ sentinels)
    by (apply in_list_false; reflexivity).
  assert (Hlen : length (Str.split pipe_sep sample_lines) < 3)
    by (vm_compute; lia).
  split.
  - apply (Hv4 sample_lines Hne Hsent Hlen).
  - apply (Hv1 sample_lines Hne Hsent Hlen).
Defined.

Lemma parser_returns (s : pystr) :
  ∃ info : file_info, extract_file_info_from_attachment s = Ok info.
Proof.
  unfold extract_file_info_from_attachment.
  destruct (negb _ || _); [by eauto|].
  destruct (Nat.leb_spec 3 (length (Str.split pipe_sep s))) as [Hlen|Hlen];
    [|by eauto].
  destruct (Str.split pipe_sep s) as [|p0 [|p1 [|p2 rest]]];
    simpl in Hlen; try lia.
  cbn [getitem lookup list_lookup res_bind].
  rewrite split_newline_head. cbn [res_bind]. by eauto.
Qed.

(** C7.  The parser is total on strings: every index it takes is in range,
    so it returns a triple and raises nothing, in its last form and in its
    first. *)
Theorem parse_total (s : pystr) :
  (∃ info : file_info, extract_file_info_from_attachment s = Ok info)
  ∧ (∃ info : file_info, V1.extract_file_info_from_attachment s = Ok info).
Proof.
  split; [apply parser_returns|].
  unfold V1.extract_file_info_from_attachment.
  destruct (negb _ || _); [by eauto|].
  destruct (Nat.leb_spec 3 (length (Str.split pipe_sep s))) as [Hlen|Hlen];
    [|by eauto].
  destruct (Str.split pipe_sep s) as [|p0 [|p1 [|p2 rest]]];
    simpl in Hlen; try lia.
  cbn [getitem lookup list_lookup res_bind]. by eauto.
Qed.

(** ** The first form of the parser (v1 and v2)

    It agrees with the last form on the file type and the file name; its
    URL is the whole trimmed third segment, and it does not look for a URL
    in a descriptor with fewer than three segments. *)

(** The two forms agree on a three-segment descriptor exactly when trimming
    the first line of the trimmed third segment gives that segment back. *)
Lemma v1_agrees_on_one_line (s p0 p1 p2 : pystr) (rest : list pystr) :
  Str.split pipe_sep s = p0 :: p1 :: p2 :: rest →
  (V1.extract_file_info_from_attachment s
   = extract_file_info_from_attachment s
   ↔ Str.strip (first_line (Str.strip p2)) = Str.strip p2).
Proof.
  intros Hsplit. rewrite (v1_three_segments s p0 p1 p2 rest Hsplit).
  unfold extract_file_info_from_attachment.
  rewrite (three_segments_guard s p0 p1 p2 rest Hsplit), Hsplit.
  cbn [length Nat.leb getitem lookup list_lookup res_bind].
  rewrite split_newline_head. cbn [res_bind].
  split; [intros [= H]; by rewrite <- H|by intros ->].
Qed.

Example v1_keeps_later_lines :
  V1.extract_file_info_from_attachment
    (Str.lit "pdf | hw1.pdf | https://x/y.pdf" ++ newline
     ++ Str.lit "application/pdf")
  = Ok (Some (Str.lit "pdf"), Some (Str.lit "hw1.pdf"),
        Some (Str.lit "https://x/y.pdf" ++ newline
              ++ Str.lit "application/pdf")).
Proof. reflexivity. Qed.

(** * Descriptors that stand for no file *)

(** The parser returns three absent fields for the empty string and for the
    two sentinels, in its last form and in its first. *)
Lemma parse_no_file (s : pystr) :
  s = [] ∨ s ∈ sentinels →
  extract_file_info_from_attachment s = Ok (None, None, None)
  ∧ V1.extract_file_info_from_attachment s = Ok (None, None, None).
Proof.
  intros H%no_file_guard.
  unfold extract_file_info_from_attachment,
    V1.extract_file_info_from_attachment.
  by rewrite H.
Qed.

(** The test of both traversals stops the two sentinels. *)
Lemma attachment_sentinel (a : assignment) (s : pystr) :
  submitAttachments a = Some s → s ∈ sentinels →
  submitted_attachment a = None.
Proof.
  unfold submitted_attachment. intros -> H%in_list_true. by rewrite H.
Qed.

(** It lets every other descriptor through, the empty one too. *)
Lemma attachment_other (a : assignment) (s : pystr) :
  submitAttachments a = Some s → s ∉ sentinels →
  submitted_attachment a = Some s.
Proof.
  unfold submitted_attachment. intros -> H%in_list_false. by rewrite H.
Qed.

(** The extraction traversal records nothing for a sentinel. *)
Lemma sentinel_not_recorded parse student_name a s sa :
  submitAttachments a = Some s → s ∈ sentinels →
  record_assignment parse student_name a sa = Ok sa.
Proof.
  intros Ha Hs. unfold record_assignment. by rewrite (attachment_sentinel a s).
Qed.

(** The download traversal counts nothing, requests nothing and creates
    nothing for a sentinel or an empty descriptor. *)
Lemma no_file_not_downloaded E student_folder i a s c w :
  submitAttachments a = Some s → s = [] ∨ s ∈ sentinels →
  process_assignment E student_folder i a c w = Some (Ok c, w).
Proof.
  intros Ha Hs. unfold process_assignment.
  destruct (decide (s ∈ sentinels)) as [Hin|Hnin].
  - by rewrite (attachment_sentinel a s).
  - rewrite (attachment_other a s) by done.
    unfold bind, lift. by rewrite (proj1 (parse_no_file s Hs)).
Qed.

(** C2, on the code.  An assignment whose [submitAttachments] is the empty
    string passes the test of the extraction traversal although the parser
    finds no file in it: the student is recorded with one submission, and
    the CSV file gets a data row whose three file columns are empty. *)
Theorem empty_descriptor_recorded (student_name : pystr) :
  let data := one_assignment_report student_name [] in
  ∃ sa : student_assignments,
    extract_student_assignments extract_file_info_from_attachment data = Ok sa
    ∧ sa = {[ student_name := [blank_info] ]}
    ∧ size sa = 1
    ∧ submissions_count sa = 1
    ∧ create_csv_file sa = [(student_name, blank_info)].
Proof.
  intros data. eexists. split; [reflexivity|].
  assert (Hsa : append_info student_name blank_info ∅
                = {[ student_name := [blank_info] ]}).
  { unfold append_info. by rewrite lookup_empty, insert_empty. }
  change
    (append_info student_name blank_info ∅ = {[student_name := [blank_info]]}
     ∧ size (append_info student_name blank_info ∅) = 1
     ∧ submissions_count (append_info student_name blank_info ∅) = 1
     ∧ create_csv_file (append_info student_name blank_info ∅)
       = [(student_name, blank_info)]).
  rewrite Hsa. split; [done|]. split; [apply map_size_singleton|].
  unfold submissions_count, create_csv_file, sorted_keys.
  rewrite map_to_list_singleton. split; [done|].
  cbn. by rewrite lookup_singleton_eq.
Qed.

(** * The fetcher *)

Section Fetch.

Context (E : env) (url file_path : pystr).

(** The three ways the attempt loop can end, over the attempt numbers
    [a, a+1, ..., a+n-1]: some attempt fetches the file after request
    failures only; some attempt fails otherwise after request failures
    only; or every attempt is a request failure. *)
Lemma download_attempts_cases max_retries n a w :
  let r := download_attempts E url file_path max_retries (seq a n) w in
  (∃ k, k < n
      ∧ (∀ j, j < k → is_request_exception (http E (requests w + j) url))
      ∧ http E (requests w + k) url = Fetched
      ∧ r.1 = true ∧ requests r.2 = requests w + k + 1
      ∧ file_path ∈ fs r.2)
  ∨ (∃ k c, k < n
      ∧ (∀ j, j < k → is_request_exception (http E (requests w + j) url))
      ∧ http E (requests w + k) url = OtherException c
      ∧ r.1 = false ∧ requests r.2 = requests w + k + 1)
  ∨ ((∀ j, j < n → is_request_exception (http E (requests w + j) url))
      ∧ r.1 = false ∧ requests r.2 = requests w + n).
Proof.
  revert a w. induction n as [|n IH]; intros a w; cbn zeta.
  { right; right. cbn. split; [lia|]. split; [done|lia]. }
  cbn [seq download_attempts].
  destruct (attempt_download E url file_path w) as [o w1] eqn:Hatt.
  assert (Ho : o = http E (requests w) url) by (by inversion Hatt).
  assert (Hw1 : requests w1 = S (requests w)) by (by inversion Hatt).
  destruct o as [|c|c].
  - left. exists 0. rewrite Nat.add_0_r. cbn.
    split; [lia|]. split; [lia|]. split; [done|]. split; [done|].
    split; [lia|]. unfold attempt_download in Hatt. rewrite <- Ho in Hatt.
    inversion Hatt. cbn. left.
  - set (w2 := if a <? max_retries - 1 then sleep (backoff a) w1 else w1).
    assert (Hw2 : requests w2 = S (requests w)).
    { unfold w2. by destruct (a <? max_retries - 1). }
    assert (Hshift : ∀ k P,
      (∀ j, j < k → is_request_exception (http E (requests w2 + j) url)) →
      P → ∀ j, j < S k →
      is_request_exception (http E (requests w + j) url)).
    { intros k P Hk _ [|j] Hj.
      - by rewrite Nat.add_0_r, <- Ho.
      - replace (requests w + S j) with (requests w2 + j) by lia.
        apply Hk. lia. }
    destruct (IH (S a) w2) as
      [(k & Hk & Hpre & Hf & Hr & Hq & Hfs)
      |[(k & c' & Hk & Hpre & Hf & Hr & Hq)|(Hpre & Hr & Hq)]].
    + left. exists (S k). split; [lia|]. split; [by eapply Hshift|].
      replace (requests w + S k) with (requests w2 + k) by lia.
      split; [done|]. split; [done|]. split; [|done]. rewrite Hq. lia.
    + right; left. exists (S k), c'. split; [lia|].
      split; [by eapply Hshift|].
      replace (requests w + S k) with (requests w2 + k) by lia.
      split; [done|]. split; [done|]. rewrite Hq. lia.
    + right; right. split; [by eapply Hshift|]. split; [done|].
      rewrite Hq. lia.
  - right; left. exists 0, c. rewrite Nat.add_0_r. cbn.
    split; [lia|]. split; [lia|]. split; [done|]. split; [done|lia].
Qed.

(** The events of the attempt loop, when it runs over the last [n]
    attempt numbers below [max_retries]. *)
Lemma download_attempts_trace max_retries n a w :
  a + n = max_retries →
  let r := download_attempts E url file_path max_retries (seq a n) w in
  ∃ k, k ≤ n ∧ (0 < n → 0 < k)
    ∧ requests r.2 = requests w + k
    ∧ trace r.2 = trace w ++ schedule url file_path a k.
Proof.
  revert a w. induction n as [|n IH]; intros a w Hmax; cbn zeta.
  { exists 0. cbn. rewrite app_nil_r. repeat split; lia. }
  cbn [seq download_attempts].
  destruct (attempt_download E url file_path w) as [o w1] eqn:Hatt.
  assert (Hw1 : requests w1 = S (requests w)) by (by inversion Hatt).
  assert (Ht1 : trace w1 = trace w ++ [Request url file_path])
    by (by inversion Hatt).
  destruct o as [|c|c].
  - exists 1. cbn. rewrite Ht1. repeat split; lia.
  - destruct n as [|n].
    + assert ((a <? max_retries - 1) = false) as -> by (apply Nat.ltb_ge; lia).
      exists 1. cbn. rewrite Ht1. repeat split; lia.
    + assert ((a <? max_retries - 1) = true) as -> by (apply Nat.ltb_lt; lia).
      destruct (IH (S a) (sleep (backoff a) w1)) as (k & Hk & Hpos & Hq & Ht);
        [lia|].
      destruct k as [|k]; [lia|].
      exists (S (S k)). rewrite Hq, Ht. cbn [sleep trace requests].
      rewrite Ht1, Hw1, <- !app_assoc. cbn. repeat split; lia.
  - exists 1. cbn. rewrite Ht1. repeat split; lia.
Qed.

Lemma download_file_cases max_retries w :
  let r := download_file E url file_path max_retries w in
  (∃ k, k < max_retries
      ∧ (∀ j, j < k → is_request_exception (http E (requests w + j) url))
      ∧ http E (requests w + k) url = Fetched
      ∧ r.1 = true ∧ requests r.2 = requests w + k + 1
      ∧ file_path ∈ fs r.2)
  ∨ (∃ k c, k < max_retries
      ∧ (∀ j, j < k → is_request_exception (http E (requests w + j) url))
      ∧ http E (requests w + k) url = OtherException c
      ∧ r.1 = false ∧ requests r.2 = requests w + k + 1)
  ∨ ((∀ j, j < max_retries →
           is_request_exception (http E (requests w + j) url))
      ∧ r.1 = false ∧ requests r.2 = requests w + max_retries).
Proof. apply download_attempts_cases. Qed.

End Fetch.

(** The first attempt that is not a request failure is one attempt. *)
Lemma first_final_unique (o : nat → outcome) (k k' : nat) :
  (∀ j, j < k → is_request_exception (o j)) → ¬ is_request_exception (o k) →
  (∀ j, j < k' → is_request_exception (o j)) → ¬ is_request_exception (o k') →
  k = k'.
Proof.
  intros Hpre Hk Hpre' Hk'.
  destruct (Nat.lt_trichotomy k k') as [Hlt|[->|Hgt]]; [|done|].
  - by apply Hpre' in Hlt.
  - by apply Hpre in Hgt.
Qed.

(** C4.  [download_file] returns [True] only when one of its attempts, at
    most [max_retries] of them and each after request failures only, fetched
    the whole body (the file then exists); after [max_retries] request
    failures in a row it returns [False], having made [max_retries]
    attempts; and an attempt that fails with any other exception makes it
    return [False] at once, that attempt being the last. *)
Theorem download_file_result (E : env) (url file_path : pystr)
    (max_retries : nat) (w : world) :
  let r := download_file E url file_path max_retries w in
  (r.1 = true →
     ∃ k, k < max_retries
       ∧ (∀ j, j < k → is_request_exception (http E (requests w + j) url))
       ∧ http E (requests w + k) url = Fetched
       ∧ requests r.2 = requests w + k + 1
       ∧ file_path ∈ fs r.2)
  ∧ ((∀ j, j < max_retries →
         is_request_exception (http E (requests w + j) url)) →
     r.1 = false ∧ requests r.2 = requests w + max_retries)
  ∧ (∀ k c, k < max_retries →
       (∀ j, j < k → is_request_exception (http E (requests w + j) url)) →
       http E (requests w + k) url = OtherException c →
       r.1 = false ∧ requests r.2 = requests w + k + 1).
Proof.
  intros r.
  pose proof (download_file_cases E url file_path max_retries w) as Hcases.
  fold r in Hcases. cbn zeta in Hcases. split; [|split].
  - intros Htrue.
    destruct Hcases as
      [(k & Hk & Hpre & Hf & _ & Hq & Hfs)
      |[(k & c & _ & _ & _ & Hr & _)|(_ & Hr & _)]];
      [by exists k|congruence..].
  - intros Hall.
    destruct Hcases as
      [(k & Hk & _ & Hf & _)|[(k & c & Hk & _ & Hf & _)|(_ & Hr & Hq)]];
      [| |done]; apply Hall in Hk; by rewrite Hf in Hk.
  - intros k c Hk Hpre Ho.
    assert (Hsame : ∀ k' o',
      (∀ j, j < k' → is_request_exception (http E (requests w + j) url)) →
      http E (requests w + k') url = o' → ¬ is_request_exception o' →
      k = k').
    { intros k' o' Hpre' Ho' Hfinal.
      apply (first_final_unique (λ j, http E (requests w + j) url));
        [done| |done|]; cbn beta.
      - rewrite Ho. cbn. tauto.
      - by rewrite Ho'. }
    destruct Hcases as
      [(k' & Hk' & Hpre' & Hf & Hr & _)
      |[(k' & c' & Hk' & Hpre' & Hf & Hr & Hq)|(Hall & _)]].
    + assert (k = k') as <-
        by (apply (Hsame k' Fetched); [done|done|cbn; tauto]).
      congruence.
    + assert (k = k') as <-
        by (apply (Hsame k' (OtherException c')); [done|done|cbn; tauto]).
      done.
    + apply Hall in Hk. by rewrite Ho in Hk.
Qed.

Lemma download_file_result_witness :
  (download_file (flaky_env 5) sample_url sample_report_path 3 empty_world).1
  = false
  ∧ requests
      (download_file (flaky_env 5) sample_url sample_report_path 3
         empty_world).2
    = 0 + 3.
Proof.
  destruct (download_file_result (flaky_env 5) sample_url sample_report_path
              3 empty_world) as (_ & Hexhausted & _).
  apply Hexhausted. intros j Hj. cbn.
  destruct j as [|[|[|j]]]; cbn; try done. lia.
Defined.

(** The sleeps of a schedule are the powers of two, one fewer than the
    attempts. *)
Lemma schedule_sleeps url file_path a k :
  sleeps (schedule url file_path a k) = backoff <$> seq a (k - 1).
Proof.
  revert a. induction k as [|k IH]; intros a; [done|].
  destruct k as [|k]; [done|].
  change (sleeps (schedule url file_path a (S (S k))))
    with (backoff a :: sleeps (schedule url file_path (S a) (S k))).
  rewrite IH. cbn. by rewrite Nat.sub_0_r.
Qed.

(** The delays written out: [2 ** i] seconds for [i = 0, 1, 2, ...]. *)
Lemma schedule_sleeps_powers url file_path k :
  sleeps (schedule url file_path 0 k)
  = (λ i : nat, inject_Z (2 ^ Z.of_nat i)) <$> seq 0 (k - 1).
Proof. by rewrite schedule_sleeps. Qed.

(** The first delays are 1, 2 and 4 seconds. *)
Lemma schedule_sleeps_first url file_path k :
  take 3 (sleeps (schedule url file_path 0 k))
  = take (k - 1) [1; 2; 4]%Q.
Proof.
  rewrite schedule_sleeps. destruct (k - 1) as [|[|[|n]]]; [reflexivity..|].
  rewrite (take_ge [1; 2; 4]%Q) by (cbn; lia). reflexivity.
Qed.

(** A schedule ends with a request: nothing is slept after the last
    attempt. *)
Lemma schedule_last url file_path a k :
  0 < k → last (schedule url file_path a k) = Some (Request url file_path).
Proof.
  revert a. induction k as [|k IH]; intros a Hk; [lia|].
  destruct k as [|k]; [done|].
  change (schedule url file_path a (S (S k)))
    with (Request url file_path :: Sleep (backoff a)
          :: schedule url file_path (S a) (S k)).
  rewrite !last_cons, (IH (S a)) by lia. done.
Qed.

(** C5.  The events of a call of [download_file] are, for some number [k]
    of attempts, [k] at most [max_retries]: a request, then for each further
    attempt a sleep and a request.  The sleep between the attempts numbered
    [i] and [i + 1] is [2 ** i] seconds, so the sleeps are 1, 2, 4, ...
    seconds in this order, one fewer than the attempts; the last event is a
    request, so nothing is slept after the last attempt. *)
Theorem download_file_backoff (E : env) (url file_path : pystr)
    (max_retries : nat) (w : world) :
  let r := download_file E url file_path max_retries w in
  ∃ k, k ≤ max_retries
    ∧ requests r.2 = requests w + k
    ∧ trace r.2 = trace w ++ schedule url file_path 0 k
    ∧ sleeps (schedule url file_path 0 k) = backoff <$> seq 0 (k - 1)
    ∧ sleeps (schedule url file_path 0 k)
      = (λ i : nat, inject_Z (2 ^ Z.of_nat i)) <$> seq 0 (k - 1)
    ∧ take 3 (sleeps (schedule url file_path 0 k))
      = take (k - 1) [1; 2; 4]%Q
    ∧ (0 < k →
       last (schedule url file_path 0 k) = Some (Request url file_path)).
Proof.
  intros r.
  destruct (download_attempts_trace E url file_path max_retries max_retries 0 w)
    as (k & Hk & _ & Hq & Ht); [done|].
  exists k. split; [done|]. split; [done|]. split; [done|].
  split; [apply schedule_sleeps|]. split; [apply schedule_sleeps_powers|].
  split; [apply schedule_sleeps_first|apply schedule_last].
Qed.

(** Two request failures, then a success, with [max_retries = 3]: [True],
    after sleeps of 1 and 2 seconds. *)
Example download_third_time_lucky (url file_path : pystr) :
  download_file (flaky_env 2) url file_path 3 empty_world
  = (true,
     {| fs := [file_path]; requests := 3;
        trace := [ Request url file_path; Sleep 1; Request url file_path;
                   Sleep 2; Request url file_path ] |}).
Proof. reflexivity. Qed.

(** Three request failures with [max_retries = 3]: [False], and no sleep
    after the third attempt. *)
Example download_exhausted (url file_path : pystr) :
  download_file (flaky_env 3) url file_path 3 empty_world
  = (false,
     {| fs := []; requests := 3;
        trace := [ Request url file_path; Sleep 1; Request url file_path;
                   Sleep 2; Request url file_path ] |}).
Proof. reflexivity. Qed.

(** Four request failures with [max_retries = 4]: the sleeps are 1, 2 and 4
    seconds. *)
Example download_four_attempts (url file_path : pystr) :
  sleeps (trace (download_file (flaky_env 4) url file_path 4 empty_world).2)
  = [1; 2; 4]%Q.
Proof. reflexivity. Qed.

(** * File-name collisions *)

Lemma lit_inj : Inj (=) (=) Str.lit.
Proof.
  assert (Hinj : Inj (=) (=) N_of_ascii).
  { intros x y Hxy.
    by rewrite <- (ascii_N_embedding x), <- (ascii_N_embedding y), Hxy. }
  intros a b H. unfold Str.lit in H. apply (inj _) in H.
  by rewrite <- (string_of_list_ascii_of_string a),
    <- (string_of_list_ascii_of_string b), H.
Qed.

Lemma of_nat_inj : Inj (=) (=) Str.of_nat.
Proof.
  intros a b H. unfold Str.of_nat in H. apply lit_inj in H.
  apply (f_equal NilEmpty.uint_of_string) in H.
  rewrite !NilEmpty.usu in H. injection H as H.
  by rewrite <- (Unsigned.of_to a), <- (Unsigned.of_to b), H.
Qed.

Lemma splitext_app p : (Path.splitext p).1 ++ (Path.splitext p).2 = p.
Proof.
  unfold Path.splitext. case_match; cbn; [apply take_drop|apply app_nil_r].
Qed.

Section Collision.

Context (folder desired : pystr).

Local Abbreviation cand := (candidate desired).
Local Abbreviation path := (candidate_path folder desired).

Lemma candidate_inj i j : cand (S i) = cand (S j) → i = j.
Proof.
  unfold candidate. intros H.
  apply app_inv_head, app_inv_head, app_inv_tail, of_nat_inj in H.
  by injection H.
Qed.

Lemma join_inj a b :
  Str.startswith a [Path.sep] = Str.startswith b [Path.sep] →
  Path.join folder a = Path.join folder b → a = b.
Proof.
  unfold Path.join. intros ->. destruct (Str.startswith b _); [done|].
  destruct (_ || _); intros H; by repeat apply app_inv_head in H.
Qed.

(** The names tried after the first give different paths. *)
Lemma candidate_path_inj i j : path (S i) = path (S j) → i = j.
Proof.
  intros H. apply candidate_inj. revert H. apply join_inj.
  unfold candidate. by destruct (Path.splitext desired).1.
Qed.

(** Among the paths numbered [1] to [n + 1], one is not in a list of [n]
    paths. *)
Lemma some_candidate_free (l : list pystr) :
  ∃ j, j < length l + 2 ∧ path j ∉ l.
Proof.
  destruct (decide (Forall (λ j, path j ∈ l) (seq 1 (S (length l)))))
    as [Hall|Hsome].
  - exfalso.
    assert (Hsub : (path <$> seq 1 (S (length l))) ⊆+ l).
    { apply NoDup_submseteq.
      - apply NoDup_fmap_2_strong; [|apply NoDup_seq].
        intros i j [Hi _]%elem_of_seq [Hj _]%elem_of_seq Hp.
        destruct i as [|i]; [lia|]. destruct j as [|j]; [lia|].
        f_equal. by apply candidate_path_inj.
      - intros p (j & -> & Hj)%list_elem_of_fmap.
        by eapply Forall_forall in Hall. }
    apply submseteq_length in Hsub.
    rewrite length_fmap, length_seq in Hsub. lia.
  - apply not_Forall_Exists in Hsome; [|apply _].
    apply Exists_exists in Hsome as (j & [_ Hj]%elem_of_seq & Hfree).
    exists j. split; [lia|done].
Qed.

(** The loop started at the name numbered [c] stops at the first free
    path from [c] on, when its fuel reaches that far. *)
Lemma unique_path_first_free w fuel c :
  (∃ j, (c ≤ j < c + fuel) ∧ path j ∉ fs w) →
  ∃ k, c ≤ k
    ∧ unique_path fuel w folder desired (S c) (cand c) (path c)
      = Some (cand k, path k)
    ∧ (path k ∉ fs w)
    ∧ ∀ j, (c ≤ j < k) → path j ∈ fs w.
Proof.
  revert c. induction fuel as [|fuel IH]; intros c (j & Hj & Hfree);
    [lia|].
  cbn [unique_path]. unfold path_exists.
  destruct (decide (path c ∈ fs w)) as [Hin|Hnin].
  - rewrite bool_decide_eq_true_2 by done.
    destruct (Path.splitext desired) as [name ext] eqn:Hsplit.
    destruct (IH (S c)) as (k & Hk & Hrun & Hk_free & Hbelow).
    { exists j. split; [|done].
      destruct (decide (j = c)) as [->|]; [done|lia]. }
    exists k. split; [lia|]. split.
    + rewrite <- Hrun. unfold candidate_path, candidate.
      rewrite Hsplit, Nat.add_1_r. done.
    + split; [done|]. intros i Hi.
      destruct (decide (i = c)) as [->|]; [done|]. apply Hbelow. lia.
  - rewrite bool_decide_eq_false_2 by done.
    exists c. split; [done|]. split; [done|]. split; [done|]. lia.
Qed.

End Collision.

(** The collision handling ends, at the first free name. *)
Lemma resolve_collision_total (w : world) (folder desired : pystr) :
  ∃ k, resolve_collision w folder desired
       = Some (candidate desired k, candidate_path folder desired k)
     ∧ (candidate_path folder desired k ∉ fs w)
     ∧ (∀ j, j < k → candidate_path folder desired j ∈ fs w).
Proof.
  unfold resolve_collision.
  destruct (unique_path_first_free folder desired w (length (fs w) + 2) 0)
    as (k & _ & Hrun & Hfree & Hbelow).
  - destruct (some_candidate_free folder desired (fs w)) as (j & Hj & Hfree).
    exists j. split; [lia|done].
  - exists k. split; [done|]. split; [done|]. intros j Hj. apply Hbelow. lia.
Qed.

(** C6.  For every desired name and every set of existing paths, the
    collision handling ends and gives the first name of the sequence
    [name.ext], [name_1.ext], [name_2.ext], ... whose path is free; the
    names tried with different counters differ, and so do their paths.  With
    [report.pdf] taken, the name is [report_1.pdf]; once that is taken as
    well, [report_2.pdf]. *)
Theorem resolve_collision_first_free :
  (∀ (w : world) (folder desired : pystr),
     ∃ k, resolve_collision w folder desired
          = Some (candidate desired k, candidate_path folder desired k)
        ∧ (candidate_path folder desired k ∉ fs w)
        ∧ (∀ j, j < k → candidate_path folder desired j ∈ fs w))
  ∧ (∀ (folder desired : pystr) (i j : nat),
       candidate_path folder desired (S i) = candidate_path folder desired (S j)
       → i = j)
  ∧ (∀ (w : world) (folder : pystr),
       let report n := Path.join folder (Str.lit n) in
       report "report.pdf" ∈ fs w →
       report "report_1.pdf" ∉ fs w →
       report "report_2.pdf" ∉ fs w →
       resolve_collision w folder (Str.lit "report.pdf")
       = Some (Str.lit "report_1.pdf", report "report_1.pdf")
       ∧ resolve_collision (create_path (report "report_1.pdf") w) folder
           (Str.lit "report.pdf")
         = Some (Str.lit "report_2.pdf", report "report_2.pdf")).
Proof.
  pose proof resolve_collision_total as Hgeneral.
  split; [done|]. split; [intros; by eapply candidate_path_inj|].
  intros w folder report H0 H1 H2.
  assert (Hc0 : candidate_path folder (Str.lit "report.pdf") 0
                = report "report.pdf") by reflexivity.
  assert (Hc1 : candidate_path folder (Str.lit "report.pdf") 1
                = report "report_1.pdf") by reflexivity.
  assert (Hc2 : candidate_path folder (Str.lit "report.pdf") 2
                = report "report_2.pdf") by reflexivity.
  assert (Hfirst : ∀ w' n,
    candidate_path folder (Str.lit "report.pdf") n ∉ fs w' →
    (∀ j, j < n → candidate_path folder (Str.lit "report.pdf") j ∈ fs w') →
    resolve_collision w' folder (Str.lit "report.pdf")
    = Some (candidate (Str.lit "report.pdf") n,
            candidate_path folder (Str.lit "report.pdf") n)).
  { intros w' n Hfree Hbelow.
    destruct (Hgeneral w' folder (Str.lit "report.pdf"))
      as (k & -> & Hk & Hkb).
    destruct (Nat.lt_trichotomy k n) as [Hlt|[->|Hgt]]; [|done|].
    - by apply Hbelow in Hlt.
    - by apply Hkb in Hgt. }
  split.
  - rewrite <- Hc1. apply (Hfirst w 1); [by rewrite Hc1|].
    intros [|j] Hj; [by rewrite Hc0|lia].
  - rewrite <- Hc2.
    apply (Hfirst (create_path (report "report_1.pdf") w) 2).
    + change (fs (create_path ?p w)) with (p :: fs w).
      rewrite not_elem_of_cons. split; [|by rewrite Hc2].
      rewrite <- Hc1. intros Heq.
      by apply (candidate_path_inj _ _ 1 0) in Heq.
    + change (fs (create_path ?p w)) with (p :: fs w).
      intros [|[|j]] Hj; [rewrite Hc0; by right|rewrite Hc1; by left|lia].
Qed.

Lemma resolve_collision_first_free_witness :
  resolve_collision sample_world sample_folder (Str.lit "report.pdf")
  = Some (Str.lit "report_1.pdf", Str.lit "downloads/c/s/report_1.pdf")
  ∧ resolve_collision
      (create_path (Str.lit "downloads/c/s/report_1.pdf") sample_world)
      sample_folder (Str.lit "report.pdf")
    = Some (Str.lit "report_2.pdf", Str.lit "downloads/c/s/report_2.pdf").
Proof.
  destruct resolve_collision_first_free as (_ & _ & Hreport).
  apply (Hreport sample_world sample_folder); cbn [fs sample_world].
  - compute_done.
  - compute_done.
  - compute_done.
Defined.

(** * The order of Python strings *)

Section StrOrder.

Local Open Scope N_scope.

Lemma leb_cons x a y b :
  Str.leb (x :: a) (y :: b) = true ↔ x < y ∨ (x = y ∧ Str.leb a b = true).
Proof.
  cbn [Str.leb]. rewrite orb_true_iff, andb_true_iff, N.ltb_lt, N.eqb_eq.
  done.
Qed.

#[global] Instance le_refl : Reflexive Str.le.
Proof.
  intros a. unfold Str.le. induction a as [|x a IH]; [done|].
  apply leb_cons. by right.
Qed.

#[global] Instance le_trans : Transitive Str.le.
Proof.
  unfold Str.le. intros a. induction a as [|x a IH]; intros b c; [done|].
  destruct b as [|y b]; [done|]. destruct c as [|z c]; [done|].
  rewrite !leb_cons. intros [Hxy|[-> Hab]] [Hyz|[-> Hbc]].
  - left. lia.
  - by left.
  - by left.
  - right. split; [done|]. by eapply IH.
Qed.

#[global] Instance le_total : Total Str.le.
Proof.
  unfold Str.le. intros a. induction a as [|x a IH]; intros b; [by left|].
  destruct b as [|y b]; [by right|]. rewrite !leb_cons.
  destruct (N.lt_trichotomy x y) as [Hlt|[->|Hgt]].
  - left. by left.
  - destruct (IH b); [left|right]; by right.
  - right. by left.
Qed.

#[global] Instance le_antisymm : AntiSymm (=) Str.le.
Proof.
  unfold Str.le. intros a. induction a as [|x a IH]; intros b.
  { by destruct b. }
  destruct b as [|y b]; [done|]. rewrite !leb_cons.
  intros [Hxy|[-> Hab]] [Hyx|[Heq Hba]]; try lia.
  f_equal. by apply IH.
Qed.

End StrOrder.

(** * The rows of the CSV file *)

Lemma sorted_keys_sorted (sa : student_assignments) :
  StronglySorted Str.le (sorted_keys sa).
Proof. apply StronglySorted_merge_sort; apply _. Qed.

Lemma sorted_keys_perm (sa : student_assignments) :
  sorted_keys sa ≡ₚ (map_to_list sa).*1.
Proof. apply merge_sort_Permutation. Qed.

(** The first column of the rows: each sorted name, once per submission. *)
Lemma csv_names (sa : student_assignments) :
  (create_csv_file sa).*1
  = sorted_keys sa ≫=
      (λ name, replicate (length (default [] (sa !! name))) name).
Proof.
  unfold create_csv_file. induction (sorted_keys sa) as [|name l IH]; [done|].
  cbn [mbind list_bind]. rewrite fmap_app, IH. f_equal.
  induction (default [] (sa !! name)) as [|info infos IHi]; [done|].
  cbn. by rewrite IHi.
Qed.

Lemma StronglySorted_repeat {A} (R : relation A) `{!Reflexive R}
    (f : A → nat) (l : list A) :
  StronglySorted R l → StronglySorted R (l ≫= λ x, replicate (f x) x).
Proof.
  induction 1 as [|x l Hl IH Hx]; [constructor|].
  cbn [mbind list_bind]. apply StronglySorted_app_2; [| |done].
  - intros y z [-> _]%elem_of_replicate
      (z' & [-> _]%elem_of_replicate & Hz')%list_elem_of_bind.
    by eapply Forall_forall in Hx.
  - induction (f x) as [|n IHn]; cbn; constructor; [done|].
    apply Forall_forall. by intros y [-> _]%elem_of_replicate.
Qed.

Lemma StronglySorted_lookup_le {A} (R : relation A) `{!Reflexive R}
    (l : list A) i j x y :
  StronglySorted R l → i ≤ j → l !! i = Some x → l !! j = Some y → R x y.
Proof.
  intros Hl. revert i j. induction Hl as [|z l Hl IH Hz]; intros i j Hij.
  { by rewrite lookup_nil. }
  destruct i as [|i], j as [|j]; cbn; try lia.
  - intros [= ->] [= ->]. done.
  - intros [= ->] Hy%list_elem_of_lookup_2. by eapply Forall_forall in Hz.
  - apply IH. lia.
Qed.

(** The number of rows is the number of recorded submissions. *)
Lemma csv_rows_count (sa : student_assignments) :
  length (create_csv_file sa) = submissions_count sa.
Proof.
  transitivity (length (create_csv_file sa).*1); [by rewrite length_fmap|].
  rewrite csv_names.
  unfold submissions_count.
  transitivity (sum_list_with (λ name, length (default [] (sa !! name)))
                  (sorted_keys sa)).
  { induction (sorted_keys sa) as [|name l IH]; [done|].
    cbn [mbind list_bind sum_list_with].
    by rewrite length_app, length_replicate, IH. }
  rewrite sorted_keys_perm.
  assert (Hin : ∀ kv, kv ∈ map_to_list sa → kv ∈ map_to_list sa) by done.
  revert Hin. generalize (map_to_list sa) at 1 3 4.
  induction l as [|[k v] l IH]; intros Hin; [done|]. cbn.
  rewrite IH by (intros; apply Hin; by right).
  assert (Hk : sa !! k = Some v) by (apply elem_of_map_to_list, Hin; by left).
  by rewrite Hk.
Qed.

Lemma append_info_twice name (i1 i2 : assignment_info) :
  append_info name i2 (append_info name i1 ∅) = {[ name := [i1; i2] ]}.
Proof.
  unfold append_info at 2. rewrite lookup_empty, insert_empty.
  unfold append_info. by rewrite lookup_singleton_eq, insert_singleton_eq.
Qed.

(** C9.  The data rows of a CSV file come in ascending order of student
    name, so that the rows of one student are next to one another; and a
    report with two members, the first with two assignments whose
    descriptors are no sentinels and the second with one sentinel, gives
    two data rows. *)
Theorem csv_rows_sorted :
  (∀ sa : student_assignments,
     let names := (create_csv_file sa).*1 in
     StronglySorted Str.le names
     ∧ (∀ i j k name, i ≤ j → j ≤ k →
          names !! i = Some name → names !! k = Some name →
          names !! j = Some name))
  ∧ (∀ (name1 name2 d1 d2 s : pystr) (a1 a2 a3 : assignment),
       submitAttachments a1 = Some d1 → d1 ∉ sentinels →
       submitAttachments a2 = Some d2 → d2 ∉ sentinels →
       submitAttachments a3 = Some s → s ∈ sentinels →
       ∃ sa, extract_student_assignments extract_file_info_from_attachment
               (two_member_report name1 name2 a1 a2 a3) = Ok sa
           ∧ length (create_csv_file sa) = 2
           ∧ (create_csv_file sa).*1 = [name1; name1]).
Proof.
  split.
  - intros sa names.
    assert (Hsorted : StronglySorted Str.le names).
    { unfold names. rewrite csv_names.
      apply StronglySorted_repeat; [apply _|apply sorted_keys_sorted]. }
    split; [done|]. intros i j k name Hij Hjk Hi Hk.
    destruct (lookup_lt_is_Some_2 names j) as [name' Hj].
    { apply lookup_lt_Some in Hk. lia. }
    rewrite Hj. f_equal. apply (anti_symm Str.le).
    + by eapply (StronglySorted_lookup_le Str.le names j k).
    + by eapply (StronglySorted_lookup_le Str.le names i j).
  - intros name1 name2 d1 d2 s a1 a2 a3 Ha1 Hd1 Ha2 Hd2 Ha3 Hs.
    destruct (parser_returns d1) as [[[t1 n1] u1] Hp1].
    destruct (parser_returns d2) as [[[t2 n2] u2] Hp2].
    unfold extract_student_assignments, two_member_report.
    cbn [statsByMember record_members record_member member displayName
         assignments from_option id record_assignments res_bind].
    unfold record_assignment.
    rewrite (attachment_other a1 d1), Hp1 by done. cbn [res_bind].
    rewrite (attachment_other a2 d2), Hp2 by done. cbn [res_bind].
    rewrite (attachment_sentinel a3 s) by done. cbn [res_bind].
    rewrite append_info_twice.
    eexists. split; [reflexivity|].
    unfold create_csv_file, sorted_keys. rewrite map_to_list_singleton.
    cbn. rewrite lookup_singleton_eq. done.
Qed.

Lemma csv_rows_sorted_witness :
  ∃ sa, extract_student_assignments extract_file_info_from_attachment
          demo_report = Ok sa
      ∧ length (create_csv_file sa) = 2
      ∧ (create_csv_file sa).*1 = [Str.lit "Kim"; Str.lit "Kim"].
Proof.
  destruct csv_rows_sorted as [_ Hfixture].
  apply (Hfixture _ _
           (Str.lit "application/pdf | report.pdf | https://x/a/report.pdf")
           (Str.lit "application/pdf | report.pdf | https://x/b/report.pdf")
           no_attachment); try reflexivity.
  - apply in_list_false. reflexivity.
  - apply in_list_false. reflexivity.
  - apply in_list_true. reflexivity.
Defined.

(** * Files that cannot be read *)

Lemma get0_empty key : get0 ∅ key = 0.
Proof. unfold get0. by rewrite lookup_empty. Qed.

(** Adding the empty dictionary changes no total. *)
Lemma accumulate_empty (total_stats : stats) :
  accumulate total_stats ∅ = total_stats.
Proof.
  apply map_eq. intros key. unfold accumulate. rewrite map_lookup_imap.
  destruct (total_stats !! key) as [n|]; [|done]. cbn.
  by rewrite get0_empty, Nat.add_0_r.
Qed.

(** Whatever happens in the [try] block, the loop of v4 adds one entry. *)
Lemma process_file_results E st json_file :
  ∃ r, processing_results (process_file E st json_file)
       = processing_results st ++ [r]
     ∧ filename r = Path.basename json_file.
Proof.
  unfold process_file. destruct (try_file _ _ _ _) as [st'|e] eqn:Htry.
  - unfold try_file in Htry.
    destruct (extract_student_assignments_from_json _ _ _) as [sa|e];
      [|done]. cbn [res_bind] in Htry.
    destruct (bool_decide _); [destruct (creatable _ _)|];
      cbn [res_bind] in Htry; try done; injection Htry as <-; by eexists.
  - by eexists.
Qed.

Lemma main_loop_results E (l : list pystr) st :
  filename <$> processing_results (foldl (process_file E) st l)
  = (filename <$> processing_results st) ++ (Path.basename <$> l).
Proof.
  revert st. induction l as [|json_file l IH]; intros st; cbn [foldl].
  { by rewrite app_nil_r. }
  rewrite IH.
  destruct (process_file_results E st json_file) as (r & -> & Hr).
  rewrite fmap_app, <- app_assoc. cbn. by rewrite Hr.
Qed.

(** C8.  A JSON file that cannot be read or parsed stops neither script.
    In v4 the loop records for it an entry with no students, no
    submissions and the error, changes nothing else, and every file of the
    run gets its entry, in sorted order.  In the download script
    [process_json_file] returns the empty dictionary without touching
    anything, and the loop goes on with the next file, the totals
    unchanged. *)
Theorem unreadable_file_skipped (E : env) (json_file : pystr) (e : exn) :
  read_json E json_file = Raise e →
  (∀ st : main_state,
     process_file E st json_file
     = {| processing_results :=
            processing_results st ++ [failed_result json_file e];
          detailed_data := detailed_data st;
          csv_files := csv_files st |})
  ∧ (∀ json_files : list pystr,
       filename <$> processing_results (main_loop E json_files)
       = Path.basename <$> merge_sort Str.le json_files)
  ∧ (∀ (base_download_folder : pystr) (w : world),
       process_json_file E json_file base_download_folder w = Some (Ok ∅, w))
  ∧ (∀ (json_files : list pystr) (total_stats : stats) (w : world),
       process_files E (json_file :: json_files) total_stats w
       = process_files E json_files total_stats w).
Proof.
  intros Hread. repeat split.
  - intros st. unfold process_file, try_file,
      extract_student_assignments_from_json. by rewrite Hread.
  - intros json_files. unfold main_loop. by rewrite main_loop_results.
  - intros base w. unfold process_json_file. by rewrite Hread.
  - intros json_files total_stats w. cbn [process_files]. unfold bind.
    unfold process_json_file. rewrite Hread. cbn.
    by rewrite accumulate_empty.
Qed.

Lemma unreadable_file_skipped_witness :
  process_file (flaky_env 0) empty_state sample_json
  = {| processing_results := [failed_result sample_json JSONReadError];
       detailed_data := ∅; csv_files := ∅ |}
  ∧ process_json_file (flaky_env 0) sample_json download_folder empty_world
    = Some (Ok ∅, empty_world).
Proof.
  destruct (unreadable_file_skipped (flaky_env 0) sample_json JSONReadError
              eq_refl) as (Hv4 & _ & Hdl & _).
  split; [apply (Hv4 empty_state)|apply Hdl].
Defined.

(** * The download statistics *)

Lemma get0_incr key key' (d : stats) :
  get0 (incr key d) key' = if decide (key = key') then get0 d key' + 1
                           else get0 d key'.
Proof.
  unfold incr, get0 at 1. rewrite lookup_insert.
  destruct (decide (key = key')) as [->|]; done.
Qed.

Lemma counts_more_refl d : counts_more 0 d d.
Proof. unfold counts_more. lia. Qed.

Lemma counts_more_trans n m d1 d2 d3 :
  counts_more n d1 d2 → counts_more m d2 d3 → counts_more (n + m) d1 d3.
Proof. unfold counts_more. lia. Qed.

Lemma counts_more_download (ok : bool) d :
  counts_more 1 d
    (incr (if ok then "successful_downloads" else "failed_downloads")
       (incr "total_files" d)).
Proof.
  unfold counts_more.
  destruct ok; rewrite !get0_incr; repeat case_decide; try done; lia.
Qed.

Lemma counts_more_students n d d' :
  counts_more n d d' → counts_more n d (incr "students_processed" d').
Proof.
  unfold counts_more. rewrite !get0_incr. repeat case_decide; try done; lia.
Qed.

(** One pass through the body of the assignment loop, when it comes to its
    end: a downloadable attachment is counted as a file and as a success or
    a failure; any other assignment changes no counter. *)
Lemma process_assignment_counts E student_folder i a c w c' w' :
  process_assignment E student_folder i a c w = Some (Ok c', w') →
  if downloadable a then
    ∃ ok : bool,
      download_stats c'
      = incr (if ok then "successful_downloads" else "failed_downloads")
          (incr "total_files" (download_stats c))
      ∧ student_files c' = student_files c + 1
      ∧ student_downloads c' = student_downloads c + (if ok then 1 else 0)
  else c' = c.
Proof.
  unfold process_assignment, downloadable.
  destruct (submitted_attachment a) as [attachment|]; [|by intros [= ->]].
  unfold bind at 1, lift at 1.
  destruct (extract_file_info_from_attachment attachment)
    as [[[file_type file_name] file_url]|e]; [|done].
  destruct file_url as [url|]; [|by intros [= ->]].
  destruct (invalid_url (Some url)); [by intros [= ->]|]. cbn [negb].
  unfold bind at 1, lift at 1.
  destruct (choose_filename E i file_type file_name url)
    as [clean_filename|e]; [|done].
  unfold bind at 1.
  destruct (resolve_collision w student_folder clean_filename)
    as [[clean_filename' file_path]|]; [|done].
  cbn [ret]. unfold bind at 1.
  destruct (download_file E url file_path 3 w) as [ok w1]. cbn [ret].
  unfold bind at 1. destruct ok.
  - unfold bind at 1, write_file.
    destruct (creatable E _); [|done]. cbn [modify ret].
    unfold bind, modify, ret. intros [= <- <-]. by exists true.
  - cbn [ret]. unfold bind, modify, ret. intros [= <- <-].
    exists false. cbn. split; [done|]. split; [done|lia].
Qed.

Lemma process_assignment_counts_more E student_folder i a c w c' w' :
  process_assignment E student_folder i a c w = Some (Ok c', w') →
  let n := if downloadable a then 1 else 0 in
  counts_more n (download_stats c) (download_stats c')
  ∧ student_files c' = student_files c + n.
Proof.
  intros H%process_assignment_counts. destruct (downloadable a).
  - destruct H as (ok & -> & -> & _). split; [|done].
    apply counts_more_download.
  - subst c'. cbn. split; [apply counts_more_refl|lia].
Qed.

Lemma process_assignments_counts E student_folder l i c w c' w' :
  process_assignments E student_folder i l c w = Some (Ok c', w') →
  let n := length (filter (λ a, downloadable a = true) l) in
  counts_more n (download_stats c) (download_stats c')
  ∧ student_files c' = student_files c + n.
Proof.
  revert i c w. induction l as [|a l IH]; intros i c w; cbn [process_assignments].
  { intros [= <- <-]. cbn. split; [apply counts_more_refl|lia]. }
  unfold bind at 1.
  destruct (process_assignment E student_folder i a c w)
    as [[[c1|e] w1]|] eqn:Hone; [|done..].
  intros Hrest. apply process_assignment_counts_more in Hone as [Hc1 Hf1].
  apply IH in Hrest as [Hc' Hf']. rewrite filter_cons.
  destruct (downloadable a); cbn zeta in *.
  - rewrite decide_True by done. cbn [length]. split.
    + apply (counts_more_trans 1 _ _ _ _ Hc1 Hc').
    + lia.
  - rewrite decide_False by done. split.
    + apply (counts_more_trans 0 _ _ _ _ Hc1 Hc').
    + lia.
Qed.

Lemma process_member_counts E class_folder md d w d' w' :
  process_member E class_folder md d w = Some (Ok d', w') →
  counts_more (member_downloadables md) d d'.
Proof.
  unfold process_member, member_downloadables.
  destruct (member md) as [member_info|].
  2:{ intros [= <- <-]. apply counts_more_refl. }
  unfold bind at 1.
  destruct (ensure_folder E _ w) as [[[[]|e] w1]|]; [|done..].
  destruct (default [] (assignments md)) as [|a l] eqn:Hassignments.
  { intros [= <- <-]. apply counts_more_refl. }
  unfold bind at 1.
  destruct (process_assignments E _ 0 (a :: l) _ w1)
    as [[[c|e] w2]|] eqn:Hloop; [|done..].
  apply process_assignments_counts in Hloop as [Hc _]. cbn in Hc.
  destruct (0 <? student_files c); intros [= <- <-];
    [by apply counts_more_students|done].
Qed.

Lemma process_members_counts E class_folder l d w d' w' :
  process_members E class_folder l d w = Some (Ok d', w') →
  counts_more (sum_list (member_downloadables <$> l)) d d'.
Proof.
  revert d w. induction l as [|md l IH]; intros d w; cbn [process_members].
  { intros [= <- <-]. apply counts_more_refl. }
  unfold bind at 1.
  destruct (process_member E class_folder md d w)
    as [[[d1|e] w1]|] eqn:Hone; [|done..].
  intros Hrest. apply process_member_counts in Hone. apply IH in Hrest.
  cbn. by eapply counts_more_trans.
Qed.

Lemma counts_more_balanced n d :
  counts_more n new_stats d →
  stats_balanced d ∧ get0 d "total_files" = n.
Proof.
  unfold counts_more, stats_balanced. intros [-> ->]. split; reflexivity.
Qed.

Lemma process_json_file_counts E json_file_path base w d w' :
  process_json_file E json_file_path base w = Some (Ok d, w') →
  stats_balanced d
  ∧ ∀ data, read_json E json_file_path = Ok data →
      get0 d "total_files" = report_downloadables data.
Proof.
  unfold process_json_file.
  destruct (read_json E json_file_path) as [data|e].
  2:{ intros [= <- <-]. split; [done|]. intros data [=]. }
  unfold bind at 1.
  destruct (ensure_folder E _ w) as [[[[]|e] w1]|]; [|done..].
  assert (Hgoal : counts_more (report_downloadables data) new_stats d →
    stats_balanced d
    ∧ ∀ data', Ok data = Ok data' →
        get0 d "total_files" = report_downloadables data').
  { intros [Hb Ht]%counts_more_balanced. split; [done|]. by intros ? [= <-]. }
  unfold report_downloadables in *.
  destruct (statsByMember data) as [members|].
  - intros H%process_members_counts. by apply Hgoal.
  - intros [= <- <-]. apply Hgoal, counts_more_refl.
Qed.

(** ** Where nothing is refused, the traversal comes to its end *)

Section Returns.

Context (E : env) (Hbenign : benign E).

Lemma ensure_folder_returns path w :
  ∃ w', ensure_folder E path w = Some (Ok tt, w').
Proof.
  unfold ensure_folder. destruct (path_exists w path); [by eexists|].
  rewrite (proj1 Hbenign). by eexists.
Qed.

Lemma choose_filename_returns i file_type file_name url :
  ∃ clean_filename,
    choose_filename E i file_type file_name url = Ok clean_filename.
Proof.
  unfold choose_filename. destruct (negb _); [|by eexists].
  destruct (get_file_extension_from_type file_type) as [|x ext].
  - unfold get_file_extension_from_url.
    destruct (proj2 Hbenign url) as [path ->]. cbn [res_bind].
    destruct (bool_decide _); cbn [res_bind];
      destruct (Str.truthy _); by eexists.
  - cbn [res_bind]. destruct (Str.truthy _); by eexists.
Qed.

Lemma process_assignment_returns student_folder i a c w :
  ∃ c' w', process_assignment E student_folder i a c w = Some (Ok c', w').
Proof.
  unfold process_assignment.
  destruct (submitted_attachment a) as [attachment|]; [|by do 2 eexists].
  unfold bind at 1, lift at 1.
  destruct (parser_returns attachment)
    as [[[file_type file_name] file_url] ->].
  destruct file_url as [url|]; [|by do 2 eexists].
  destruct (invalid_url (Some url)); [by do 2 eexists|].
  unfold bind at 1, lift at 1.
  destruct (choose_filename_returns i file_type file_name url)
    as [clean_filename ->].
  unfold bind at 1.
  destruct (resolve_collision_total w student_folder clean_filename)
    as (k & -> & _).
  cbn [ret]. unfold bind at 1.
  destruct (download_file E url _ 3 w) as [ok w1]. cbn [ret].
  unfold bind at 1. destruct ok.
  - unfold bind at 1, write_file. rewrite (proj1 Hbenign).
    cbn [modify ret]. unfold bind, modify, ret. by do 2 eexists.
  - cbn [ret]. unfold bind, modify, ret. by do 2 eexists.
Qed.

Lemma process_assignments_returns student_folder l i c w :
  ∃ c' w',
    process_assignments E student_folder i l c w = Some (Ok c', w').
Proof.
  revert i c w. induction l as [|a l IH]; intros i c w;
    cbn [process_assignments]; [by do 2 eexists|].
  unfold bind at 1.
  destruct (process_assignment_returns student_folder i a c w)
    as (c1 & w1 & ->).
  apply IH.
Qed.

Lemma process_member_returns class_folder md d w :
  ∃ d' w', process_member E class_folder md d w = Some (Ok d', w').
Proof.
  unfold process_member. destruct (member md); [|by do 2 eexists].
  unfold bind at 1.
  destruct (ensure_folder_returns
              (Path.join class_folder
                 (sanitize_filename
                    (default no_name_folder (displayName m)))) w)
    as [w1 ->].
  destruct (default [] (assignments md)) as [|a l]; [by do 2 eexists|].
  unfold bind at 1.
  destruct (process_assignments_returns
              (Path.join class_folder
                 (sanitize_filename
                    (default no_name_folder (displayName m))))
              (a :: l) 0
              {| download_stats := d; student_files := 0;
                 student_downloads := 0 |} w1)
    as (c & w2 & ->).
  destruct (0 <? student_files c); by do 2 eexists.
Qed.

Lemma process_members_returns class_folder l d w :
  ∃ d' w', process_members E class_folder l d w = Some (Ok d', w').
Proof.
  revert d w. induction l as [|md l IH]; intros d w; cbn [process_members];
    [by do 2 eexists|].
  unfold bind at 1.
  destruct (process_member_returns class_folder md d w) as (d1 & w1 & ->).
  apply IH.
Qed.

Lemma process_json_file_returns json_file_path base w :
  ∃ d w', process_json_file E json_file_path base w = Some (Ok d, w').
Proof.
  unfold process_json_file.
  destruct (read_json E json_file_path) as [data|e]; [|by do 2 eexists].
  unfold bind at 1.
  destruct (ensure_folder_returns
              (Path.join base
                 (Path.splitext (Path.basename json_file_path)).1) w)
    as [w1 ->].
  destruct (statsByMember data); [|by do 2 eexists].
  apply process_members_returns.
Qed.

End Returns.

(** C10.  In the statistics of the download traversal the successes and
    the failures add up to the files.  One pass through the assignment loop
    that comes to its end keeps this: an attachment that passes the URL
    validation is counted once as a file and once as a success or a failure,
    any other assignment changes no counter.  The statistics
    [process_json_file] returns have it, with as many files as the report
    has attachments that pass the validation; and where no path is refused
    and [urlparse] accepts every URL, [process_json_file] does return. *)
Theorem download_stats_balanced (E : env) :
  (∀ student_folder i a c w c' w',
     process_assignment E student_folder i a c w = Some (Ok c', w') →
     (if downloadable a then
        ∃ ok : bool,
          download_stats c'
          = incr (if ok then "successful_downloads" else "failed_downloads")
              (incr "total_files" (download_stats c))
      else c' = c)
     ∧ (stats_balanced (download_stats c) →
        stats_balanced (download_stats c')))
  ∧ (∀ json_file_path base_download_folder w d w',
       process_json_file E json_file_path base_download_folder w
       = Some (Ok d, w') →
       stats_balanced d
       ∧ ∀ data, read_json E json_file_path = Ok data →
           get0 d "total_files" = report_downloadables data)
  ∧ (benign E →
     ∀ json_file_path base_download_folder w,
       ∃ d w', process_json_file E json_file_path base_download_folder w
               = Some (Ok d, w')).
Proof.
  split; [|split].
  - intros student_folder i a c w c' w' Hrun. split.
    + apply process_assignment_counts in Hrun.
      destruct (downloadable a); [|done].
      destruct Hrun as (ok & Hd & _). by exists ok.
    + apply process_assignment_counts_more in Hrun as [[Ht Hsf] _].
      unfold stats_balanced. lia.
  - intros. by eapply process_json_file_counts.
  - intros Hbenign json_file_path base w.
    by apply process_json_file_returns.
Qed.


Lemma download_stats_balanced_witness :
  ∃ d w',
    process_json_file demo_env sample_json download_folder empty_world
    = Some (Ok d, w')
    ∧ stats_balanced d
    ∧ get0 d "total_files" = 2.
Proof.
  destruct (download_stats_balanced demo_env) as (_ & Hfile & _).
  destruct (process_json_file demo_env sample_json download_folder
              empty_world) as [[[d|e] w']|] eqn:Hrun.
  - exists d, w'. split; [done|].
    destruct (Hfile _ _ _ _ _ Hrun) as [Hbalanced Htotal].
    split; [done|]. rewrite (Htotal demo_report eq_refl). vm_compute.
    reflexivity.
  - vm_compute in Hrun. discriminate Hrun.
  - vm_compute in Hrun. discriminate Hrun.
Defined.

(** The run on the report of [demo_env]: two files, both fetched, the first
    at the second attempt and after one second; the second file is saved as
    [report_1.pdf]. *)
Example demo_run :
  (λ r, match r with
        | Some (Ok d, w) => Some (counters_of d, fs w, trace w)
        | _ => None
        end)
    (process_json_file demo_env sample_json
       download_folder empty_world)
  = Some
      ((2, 2, 0, 1),
       [ Str.lit "downloads/1st_class/Lee";
         Str.lit "downloads/1st_class/Kim/report_1" ++ info_suffix;
         Str.lit "downloads/1st_class/Kim/report_1.pdf";
         Str.lit "downloads/1st_class/Kim/report" ++ info_suffix;
         Str.lit "downloads/1st_class/Kim/report.pdf";
         Str.lit "downloads/1st_class/Kim";
         Str.lit "downloads/1st_class" ],
       [ Request (Str.lit "https://x/a/report.pdf")
           (Str.lit "downloads/1st_class/Kim/report.pdf");
         Sleep 1;
         Request (Str.lit "https://x/a/report.pdf")
           (Str.lit "downloads/1st_class/Kim/report.pdf");
         Sleep (1 # 2);
         Request (Str.lit "https://x/b/report.pdf")
           (Str.lit "downloads/1st_class/Kim/report_1.pdf");
         Sleep (1 # 2) ]).
Proof. vm_compute. reflexivity. Qed.

(** * More on the string operations *)

Section StripFacts.

Lemma lstrip_fixed (s : pystr) :
  match s with [] => True | c :: _ => Str.isspace c = false end →
  Str.lstrip s = s.
Proof. destruct s as [|c s]; [done|]. cbn. by intros ->. Qed.

Lemma lstrip_head (s : pystr) :
  match Str.lstrip s with [] => True | c :: _ => Str.isspace c = false end.
Proof.
  induction s as [|c s IH]; [done|]. cbn [Str.lstrip].
  by destruct (Str.isspace c) eqn:Hc.
Qed.

Lemma lstrip_suffix (s : pystr) : ∃ pre, s = pre ++ Str.lstrip s.
Proof.
  induction s as [|c s [pre IH]]; [by exists []|]. cbn [Str.lstrip].
  destruct (Str.isspace c); [|by exists []].
  exists (c :: pre). cbn. by rewrite <- IH.
Qed.

Lemma rstrip_prefix (s : pystr) : ∃ post, s = Str.rstrip s ++ post.
Proof.
  unfold Str.rstrip. destruct (lstrip_suffix (reverse s)) as [pre Hpre].
  exists (reverse pre).
  by rewrite <- reverse_app, <- Hpre, reverse_involutive.
Qed.

Lemma lstrip_idemp (s : pystr) : Str.lstrip (Str.lstrip s) = Str.lstrip s.
Proof. apply lstrip_fixed, lstrip_head. Qed.

Lemma rstrip_idemp (s : pystr) : Str.rstrip (Str.rstrip s) = Str.rstrip s.
Proof.
  unfold Str.rstrip. by rewrite reverse_involutive, lstrip_idemp.
Qed.

Lemma strip_idemp (s : pystr) : Str.strip (Str.strip s) = Str.strip s.
Proof.
  unfold Str.strip. rewrite (lstrip_fixed (Str.rstrip _)), rstrip_idemp; [done|].
  pose proof (lstrip_head s) as Hhead.
  destruct (rstrip_prefix (Str.lstrip s)) as [post Hpost].
  destruct (Str.rstrip (Str.lstrip s)) as [|c t]; [done|].
  rewrite Hpost in Hhead. done.
Qed.

Lemma strip_trimmed (s : pystr) : trimmed (Str.strip s).
Proof. apply strip_idemp. Qed.

Lemma strip_length (s : pystr) : length (Str.strip s) ≤ length s.
Proof.
  unfold Str.strip.
  destruct (rstrip_prefix (Str.lstrip s)) as [post Hpost].
  destruct (lstrip_suffix s) as [pre Hpre].
  rewrite Hpre at 2. rewrite Hpost at 2. rewrite !length_app. lia.
Qed.

End StripFacts.

Section NewlineFacts.

Lemma first_line_id (s : pystr) : 0x0A%N ∉ s → first_line s = s.
Proof.
  induction s as [|c s IH]; [done|]. rewrite not_elem_of_cons.
  intros [Hc Hs]. cbn [first_line].
  destruct (N.eqb_spec c 10) as [->|_]; [done|]. by rewrite IH.
Qed.

(** No segment of a split on newlines holds a newline. *)
Lemma split_go_newline_lines cur s l :
  0x0A%N ∉ cur → l ∈ Str.split_go newline 0 cur s → 0x0A%N ∉ l.
Proof.
  revert cur. induction s as [|c s IH]; intros cur Hcur;
    cbn [Str.split_go Str.startswith newline length Nat.pred].
  { intros ->%list_elem_of_singleton. by rewrite elem_of_reverse. }
  rewrite andb_true_r, (N.eqb_sym 10%N c).
  destruct (N.eqb_spec c 10) as [->|Hc].
  - rewrite elem_of_cons. intros [->|Hl]; [by rewrite elem_of_reverse|].
    revert Hl. apply IH. apply not_elem_of_nil.
  - apply IH. rewrite not_elem_of_cons. split; [congruence|done].
Qed.

Lemma split_newline_lines s l : l ∈ Str.split newline s → 0x0A%N ∉ l.
Proof. apply split_go_newline_lines, not_elem_of_nil. Qed.

End NewlineFacts.

(** * More on the attachment parser *)

(** The three branches of the parser. *)
Lemma parse_cases (s : pystr) :
  ((s = [] ∨ s ∈ sentinels)
   ∧ extract_file_info_from_attachment s = Ok (None, None, None))
  ∨ (∃ p0 p1 p2 rest,
       Str.split pipe_sep s = p0 :: p1 :: p2 :: rest
       ∧ extract_file_info_from_attachment s
         = Ok (Some (Str.strip p0), Some (Str.strip p1),
               Some (Str.strip (first_line (Str.strip p2)))))
  ∨ (s ≠ [] ∧ (s ∉ sentinels) ∧ length (Str.split pipe_sep s) < 3
     ∧ extract_file_info_from_attachment s
       = Ok (scan_lines s (Str.split newline s))).
Proof.
  unfold extract_file_info_from_attachment.
  destruct (negb _ || _) eqn:Hguard.
  { left. by apply no_file_guard in Hguard. }
  assert (Hs : s ≠ [] ∧ s ∉ sentinels).
  { split; intros H; assert (Hg : s = [] ∨ s ∈ sentinels) by tauto;
      apply no_file_guard in Hg; congruence. }
  destruct (Nat.leb_spec 3 (length (Str.split pipe_sep s))) as [Hlen|Hlen].
  - right; left.
    destruct (Str.split pipe_sep s) as [|p0 [|p1 [|p2 rest]]];
      simpl in Hlen; try lia.
    exists p0, p1, p2, rest. split; [done|].
    cbn [getitem lookup list_lookup res_bind].
    by rewrite split_newline_head.
  - right; right. tauto.
Qed.

(** The loop of the fallback branch: no file type, the descriptor as name,
    and as URL nothing or a trimmed line that starts with ["https://"]. *)
Lemma scan_lines_result (s : pystr) (lines : list pystr) :
  ∃ url, scan_lines s lines = (None, Some s, url)
    ∧ ∀ u, url = Some u →
        Str.startswith u https = true ∧ ∃ l, l ∈ lines ∧ u = Str.strip l.
Proof.
  induction lines as [|l lines (url & Hscan & IH)]; cbn [scan_lines].
  { by exists None. }
  rewrite Hscan. destruct (Str.startswith (Str.strip l) https) eqn:Hl.
  - exists (Some (Str.strip l)). split; [done|]. intros u [= <-].
    split; [done|]. exists l. split; [by left|done].
  - exists url. split; [done|]. intros u Hu.
    destruct (IH u Hu) as (Hu' & l' & Hl' & ->).
    split; [done|]. exists l'. split; [by right|done].
Qed.

(** X1.  What the parser returns tells the three kinds of descriptor apart:
    the file name is absent exactly for the empty string and the two
    sentinels (and then all three fields are absent); the file type is there
    exactly when the split on [" | "] has three segments or more (and then
    all three fields are there); in between, the name is the whole
    descriptor. *)
Theorem parse_classification (s : pystr) :
  ∃ t n u : option pystr,
    extract_file_info_from_attachment s = Ok (t, n, u)
    ∧ (n = None ↔ s = [] ∨ s ∈ sentinels)
    ∧ (n = None → t = None ∧ u = None)
    ∧ (is_Some t ↔ 3 ≤ length (Str.split pipe_sep s))
    ∧ (is_Some t → is_Some n ∧ is_Some u)
    ∧ (t = None → n = None ∨ n = Some s).
Proof.
  destruct (parse_cases s) as
    [[Hs ->]|[(p0 & p1 & p2 & rest & Hsplit & ->)|(Hne & Hsent & Hlen & ->)]].
  - apply no_file_single_segment in Hs as Hone. rewrite Hone.
    do 3 eexists. split; [done|].
    repeat split; try done; try (by intros []); try lia; by left.
  - pose proof (three_segments_guard s p0 p1 p2 rest Hsplit) as Hguard.
    rewrite Hsplit. cbn [length]. do 3 eexists. split; [done|].
    repeat split; try done; try lia; try by eexists.
    intros Hs%no_file_guard. congruence.
  - destruct (scan_lines_result s (Str.split newline s)) as (url & -> & _).
    do 3 eexists. split; [done|].
    repeat split; try done; try (by intros []); try lia; tauto.
Qed.

(** X2.  A URL the parser returns is a single line without surrounding
    white space. *)
Theorem parse_url_clean (s : pystr) (t n : option pystr) (u : pystr) :
  extract_file_info_from_attachment s = Ok (t, n, Some u) →
  (0x0A%N ∉ u) ∧ trimmed u.
Proof.
  destruct (parse_cases s) as
    [[Hs ->]|[(p0 & p1 & p2 & rest & Hsplit & ->)|(Hne & Hsent & Hlen & ->)]];
    [intros [=]|intros [= _ _ <-]|intros [= Heq]].
  - split; [apply three_segments_url_one_line|apply strip_trimmed].
  - destruct (scan_lines_result s (Str.split newline s)) as (url & Hscan & Hurl).
    rewrite Hscan in Heq. destruct (Hurl u) as (_ & l & Hl & ->); [congruence|].
    split; [|apply strip_trimmed].
    intros Hin%strip_subseteq. by apply split_newline_lines in Hl.
Qed.

Lemma parse_url_clean_witness :
  (0x0A%N ∉ Str.lit "https://host/f") ∧ trimmed (Str.lit "https://host/f").
Proof.
  apply (parse_url_clean sample_lines None (Some sample_lines)). reflexivity.
Defined.

(** X3.  When the parser returns a URL without a file type (the fallback
    branch), that URL starts with ["https://"], so the validation of the
    download traversal lets it through. *)
Theorem fallback_url_valid (s : pystr) (n : option pystr) (u : pystr) :
  extract_file_info_from_attachment s = Ok (None, n, Some u) →
  Str.startswith u https = true ∧ invalid_url (Some u) = false.
Proof.
  destruct (parse_cases s) as
    [[Hs ->]|[(p0 & p1 & p2 & rest & Hsplit & ->)|(Hne & Hsent & Hlen & ->)]];
    [intros [=]|intros [=]|intros [= Heq]].
  destruct (scan_lines_result s (Str.split newline s)) as (url & Hscan & Hurl).
  rewrite Hscan in Heq. destruct (Hurl u) as (Hhttps & _); [congruence|].
  split; [done|]. unfold invalid_url. rewrite Hhttps.
  apply startswith_app in Hhttps as [rest ->]. done.
Qed.

Lemma fallback_url_valid_witness :
  Str.startswith (Str.lit "https://host/f") https = true
  ∧ invalid_url (Some (Str.lit "https://host/f")) = false.
Proof.
  apply (fallback_url_valid sample_lines (Some sample_lines)). reflexivity.
Defined.

(** ** Descriptors put together from their parts *)

Section Descriptor.

(** Up to its first separator, a string without a bar before it is one
    segment. *)
Lemma split_go_bar_free (a b cur : pystr) :
  bar ∉ a →
  Str.split_go pipe_sep 0 cur (a ++ pipe_sep ++ b)
  = (reverse cur ++ a) :: Str.split_go pipe_sep 0 [] b.
Proof.
  revert cur. induction a as [|c a IH]; intros cur Hbar.
  - rewrite app_nil_r. change ([] ++ pipe_sep ++ b)
      with (32%N :: 124%N :: 32%N :: b). cbn. done.
  - apply not_elem_of_cons in Hbar as [Hc Hbar].
    change ((c :: a) ++ pipe_sep ++ b) with (c :: (a ++ pipe_sep ++ b)).
    cbn [Str.split_go].
    assert (Str.startswith (c :: a ++ pipe_sep ++ b) pipe_sep = false) as ->.
    { change pipe_sep with [32%N; 124%N; 32%N]. cbn [Str.startswith].
      destruct a as [|c' a]; cbn [app].
      - cbn. by rewrite andb_false_r.
      - apply not_elem_of_cons in Hbar as [Hc' _].
        destruct (N.eqb_spec 124 c') as [<-|_]; [done|].
        cbn. by rewrite andb_false_r. }
    rewrite IH by done. by rewrite reverse_cons, <- app_assoc.
Qed.

Lemma split_bar_free (a : pystr) : bar ∉ a → Str.split pipe_sep a = [a].
Proof.
  intros Hbar. unfold Str.split.
  assert (H : ∀ cur, Str.split_go pipe_sep 0 cur a = [reverse cur ++ a]).
  { induction a as [|c a IH]; intros cur; cbn [Str.split_go].
    { by rewrite app_nil_r. }
    apply not_elem_of_cons in Hbar as [Hc Hbar].
    assert (Str.startswith (c :: a) pipe_sep = false) as ->.
    { change pipe_sep with [32%N; 124%N; 32%N]. cbn [Str.startswith].
      destruct a as [|c' a]; [by rewrite andb_false_r|].
      apply not_elem_of_cons in Hbar as [Hc' _].
      destruct (N.eqb_spec 124 c') as [<-|_]; [done|].
      cbn. by rewrite andb_false_r. }
    rewrite IH by done. by rewrite reverse_cons, <- app_assoc. }
  apply (H []).
Qed.

End Descriptor.

Lemma descriptor_split (t n u : pystr) :
  bar ∉ t → bar ∉ n → bar ∉ u →
  Str.split pipe_sep (descriptor t n u) = [t; n; u].
Proof.
  intros Ht Hn Hu. unfold Str.split, descriptor.
  rewrite split_go_bar_free, split_go_bar_free by done.
  by rewrite (split_bar_free u Hu : Str.split_go pipe_sep 0 [] u = [u]).
Qed.

(** X4.  A descriptor put together from a type, a name and a URL that hold
    no bar parses back to the three parts, each trimmed and the URL cut at
    its first newline; parts that are trimmed already, with a one-line URL,
    come back unchanged. *)
Theorem descriptor_roundtrip (t n u : pystr) :
  bar ∉ t → bar ∉ n → bar ∉ u →
  extract_file_info_from_attachment (descriptor t n u)
  = Ok (Some (Str.strip t), Some (Str.strip n),
        Some (Str.strip (first_line (Str.strip u))))
  ∧ (trimmed t → trimmed n → trimmed u → 0x0A%N ∉ u →
     extract_file_info_from_attachment (descriptor t n u)
     = Ok (Some t, Some n, Some u)).
Proof.
  intros Ht Hn Hu. pose proof (descriptor_split t n u Ht Hn Hu) as Hsplit.
  assert (Hparse : extract_file_info_from_attachment (descriptor t n u)
    = Ok (Some (Str.strip t), Some (Str.strip n),
          Some (Str.strip (first_line (Str.strip u))))).
  { destruct (parse_cases (descriptor t n u)) as
      [[Hs _]|[(p0 & p1 & p2 & rest & Hsplit' & ->)|(_ & _ & Hlen & _)]].
    - apply no_file_single_segment in Hs. by rewrite Hsplit in Hs.
    - rewrite Hsplit in Hsplit'. by injection Hsplit' as <- <- <- <-.
    - rewrite Hsplit in Hlen. cbn in Hlen. lia. }
  split; [done|]. intros Htt Htn Htu Hline. rewrite Hparse.
  unfold trimmed in *. by rewrite Htt, Htn, Htu, first_line_id, Htu.
Qed.

Lemma descriptor_roundtrip_witness :
  extract_file_info_from_attachment
    (descriptor (Str.lit "application/pdf") (Str.lit "hw 1.pdf")
       (Str.lit "https://x/y.pdf"))
  = Ok (Some (Str.lit "application/pdf"), Some (Str.lit "hw 1.pdf"),
        Some (Str.lit "https://x/y.pdf")).
Proof.
  apply (descriptor_roundtrip (Str.lit "application/pdf")
           (Str.lit "hw 1.pdf") (Str.lit "https://x/y.pdf"));
    compute_done.
Defined.

(** X5.  The two forms of the parser return the same file type and the same
    file name for every descriptor.  Where the first form has a URL, the
    last form has that URL cut at its first newline and trimmed; where the
    first form has a file type, it has a URL. *)
Theorem parser_versions_agree (s : pystr) :
  ∃ t n u1 u4 : option pystr,
    V1.extract_file_info_from_attachment s = Ok (t, n, u1)
    ∧ extract_file_info_from_attachment s = Ok (t, n, u4)
    ∧ (∀ x, u1 = Some x → u4 = Some (Str.strip (first_line x)))
    ∧ (is_Some t ↔ is_Some u1).
Proof.
  destruct (parse_cases s) as
    [[Hs ->]|[(p0 & p1 & p2 & rest & Hsplit & ->)|(Hne & Hsent & Hlen & ->)]].
  - rewrite (proj2 (parse_no_file s Hs)). exists None, None, None, None.
    repeat split; try done; by intros [].
  - rewrite (v1_three_segments s p0 p1 p2 rest Hsplit).
    do 4 eexists. split; [done|]. split; [done|].
    split; [by intros x [= <-]|]. split; by eexists.
  - rewrite (v1_fallback s Hne Hsent Hlen).
    destruct (scan_lines_result s (Str.split newline s)) as (url & -> & _).
    exists None, (Some s), None, url.
    repeat split; try done; by intros [].
Qed.

(** * File names *)

Section Sanitize.

Lemma replace_char_elem (old x : N) (new s : pystr) :
  x ∈ Str.replace_char old new s → x ∈ new ∨ (x ∈ s ∧ x ≠ old).
Proof.
  unfold Str.replace_char.
  intros (c & Hx & Hc)%list_elem_of_bind.
  destruct (N.eqb_spec c old) as [Heq|Hne]; [by left|].
  apply list_elem_of_singleton in Hx as ->. by right.
Qed.

Lemma replace_char_length (old u : N) (s : pystr) :
  length (Str.replace_char old [u] s) = length s.
Proof.
  unfold Str.replace_char. induction s as [|c s IH]; [done|].
  cbn [mbind list_bind]. rewrite length_app, IH.
  by destruct (c =? old)%N.
Qed.

Lemma replace_char_absent (old : N) (new s : pystr) :
  old ∉ s → Str.replace_char old new s = s.
Proof.
  unfold Str.replace_char. induction s as [|c s IH]; [done|].
  rewrite not_elem_of_cons. intros [Hc Hs]. cbn [mbind list_bind].
  rewrite IH by done. by destruct (N.eqb_spec c old) as [->|_].
Qed.

(** The replacement loop of [sanitize_filename]. *)
Lemma replace_all_elem (chars s : pystr) (x : N) :
  x ∈ foldl (λ filename char, Str.replace_char char underscore filename)
        s chars →
  x ∈ underscore ∨ (x ∈ s ∧ x ∉ chars).
Proof.
  revert s. induction chars as [|c chars IH]; intros s; cbn [foldl].
  { intros Hx. right. split; [done|apply not_elem_of_nil]. }
  intros [Hu|[[Hu|[Hs Hne]]%replace_char_elem Hchars]]%IH; [by left..|].
  right. split; [done|]. rewrite not_elem_of_cons. by split.
Qed.

Lemma replace_all_length (chars s : pystr) :
  length (foldl (λ filename char, Str.replace_char char underscore filename)
            s chars) = length s.
Proof.
  revert s. induction chars as [|c chars IH]; intros s; cbn [foldl]; [done|].
  rewrite IH. apply replace_char_length.
Qed.

Lemma replace_all_absent (chars s : pystr) :
  (∀ c, c ∈ chars → c ∉ s) →
  foldl (λ filename char, Str.replace_char char underscore filename) s chars
  = s.
Proof.
  induction chars as [|c chars IH]; intros Habsent; cbn [foldl]; [done|].
  rewrite replace_char_absent by (apply Habsent; by left).
  apply IH. intros c' Hc'. apply Habsent. by right.
Qed.

Lemma sanitize_elem (filename : pystr) (x : N) :
  x ∈ sanitize_filename filename →
  x ∈ underscore ∨ (x ∈ filename ∧ x ∉ invalid_chars).
Proof.
  unfold sanitize_filename. intros Hx%strip_subseteq.
  apply (replace_all_elem invalid_chars).
  destruct (200 <? length _); [|done].
  by apply subseteq_take in Hx.
Qed.

Lemma sanitize_absent (filename : pystr) (c : N) :
  c ∈ invalid_chars → c ∉ sanitize_filename filename.
Proof.
  intros Hc [Hu|[_ Hnot]]%sanitize_elem; [|done].
  apply list_elem_of_singleton in Hu as ->. revert Hc. compute_done.
Qed.

Lemma sanitize_length (filename : pystr) :
  length (sanitize_filename filename) ≤ 200.
Proof.
  unfold sanitize_filename. etrans; [apply strip_length|].
  destruct (Nat.ltb_spec 200 (length
    (foldl (λ filename char, Str.replace_char char underscore filename)
       filename invalid_chars))) as [Hlong|Hshort]; [|done].
  rewrite length_take. lia.
Qed.

End Sanitize.

(** X6.  A sanitized file name holds none of the nine forbidden characters,
    is at most 200 characters long, and has no white space at either end. *)
Theorem sanitize_filename_safe (filename : pystr) :
  (∀ c, c ∈ invalid_chars → c ∉ sanitize_filename filename)
  ∧ length (sanitize_filename filename) ≤ 200
  ∧ trimmed (sanitize_filename filename).
Proof.
  split; [|split].
  - intros c Hc. by apply sanitize_absent.
  - apply sanitize_length.
  - apply strip_trimmed.
Qed.

(** X7.  A name that holds no forbidden character, is at most 200
    characters long and is trimmed is its own sanitized form; so sanitizing
    twice is sanitizing once. *)
Theorem sanitize_filename_fixed :
  (∀ filename : pystr,
     (∀ c, c ∈ invalid_chars → c ∉ filename) →
     length filename ≤ 200 → trimmed filename →
     sanitize_filename filename = filename)
  ∧ (∀ filename : pystr,
       sanitize_filename (sanitize_filename filename)
       = sanitize_filename filename).
Proof.
  assert (Hfixed : ∀ filename : pystr,
     (∀ c, c ∈ invalid_chars → c ∉ filename) →
     length filename ≤ 200 → trimmed filename →
     sanitize_filename filename = filename).
  { intros filename Habsent Hlen Htrim. unfold sanitize_filename.
    rewrite replace_all_absent by done.
    by destruct (Nat.ltb_spec 200 (length filename)); [lia|]. }
  split; [done|]. intros filename.
  apply Hfixed.
  - intros c Hc. by apply sanitize_absent.
  - apply sanitize_length.
  - apply strip_trimmed.
Qed.

Lemma sanitize_filename_fixed_witness :
  sanitize_filename (Str.lit "report 1.pdf") = Str.lit "report 1.pdf".
Proof.
  apply (proj1 sanitize_filename_fixed).
  - apply Forall_forall. compute_done.
  - compute_done.
  - compute_done.
Defined.

(** ** Extensions *)

Section Extensions.

Lemma rfind_from_spec (c : N) (s : pystr) (i found : Z) :
  let r := Path.rfind_from i found c s in
  r = found
  ∨ ((i ≤ r < i + Z.of_nat (length s))%Z
     ∧ s !! Z.to_nat (r - i) = Some c).
Proof.
  revert i found. induction s as [|x s IH]; intros i found; cbn zeta;
    [by left|].
  cbn [Path.rfind_from].
  destruct (IH (i + 1)%Z (if (x =? c)%N then i else found))
    as [Hr|[Hrange Hlookup]].
  - rewrite Hr. destruct (N.eqb_spec x c) as [->|_]; [|by left].
    right. split; [cbn [length]; lia|]. by rewrite Z.sub_diag.
  - right. split; [cbn [length]; lia|].
    replace (Z.to_nat (Path.rfind_from (i + 1) _ c s - i))
      with (S (Z.to_nat (Path.rfind_from (i + 1)
                 (if (x =? c)%N then i else found) c s - (i + 1)))) by lia.
    done.
Qed.

(** The extension [os.path.splitext] returns is empty or starts with a
    dot. *)
Lemma splitext_extension (p : pystr) : extension_like (Path.splitext p).2.
Proof.
  unfold Path.splitext, extension_like.
  destruct (_ && _) eqn:Hcond; [|by left]. right. cbn [snd].
  apply andb_true_iff in Hcond as [Hlt%Z.ltb_lt _].
  unfold Path.rfind in *.
  destruct (rfind_from_spec Path.extsep p 0 (-1)) as [Hr|[Hrange Hlookup]].
  - pose proof (rfind_from_spec Path.sep p 0 (-1)) as [Hs|[Hs _]]; lia.
  - rewrite Z.sub_0_r in Hlookup.
    apply (drop_S p) in Hlookup as Hdrop. rewrite Hdrop. by eexists.
Qed.

(** So are the extensions of the MIME-type table. *)
Lemma type_extension (file_type : option pystr) :
  extension_like (get_file_extension_from_type file_type).
Proof.
  unfold get_file_extension_from_type, extension_like.
  destruct file_type as [t|]; [|by left].
  destruct (type_mapping !! t) as [ext|] eqn:Hext; [|by left]. right.
  unfold type_mapping in Hext. apply elem_of_list_to_map_2 in Hext. cbn.
  repeat (apply elem_of_cons in Hext as [[= _ ->]|Hext];
          [by eexists|]).
  by apply elem_of_nil in Hext.
Qed.

End Extensions.

(** X8.  The file name chosen for a download is the base name (the
    sanitized name from the parser, or the numbered default) followed by
    nothing or by an extension that starts with a dot; a base name that has
    an extension is kept as it is; an extension from the MIME-type table
    wins over the URL; and the choice fails only when [urlparse] fails, which
    it is asked only for a base name without extension and a MIME type
    outside the table. *)
Theorem choose_filename_shape (E : env) (i : nat)
    (file_type file_name : option pystr) (url : pystr) :
  let base := base_filename i file_name in
  let from_type := get_file_extension_from_type file_type in
  match choose_filename E i file_type file_name url with
  | Ok clean_filename =>
      ∃ ext, clean_filename = base ++ ext ∧ extension_like ext
        ∧ ((Path.splitext base).2 ≠ [] → ext = [])
        ∧ ((Path.splitext base).2 = [] → from_type ≠ [] → ext = from_type)
  | Raise e =>
      urlparse_path E url = Raise e
      ∧ (Path.splitext base).2 = [] ∧ from_type = []
  end.
Proof.
  intros base from_type. unfold choose_filename.
  change (match file_name with
          | Some ((_ :: _) as file_name) => sanitize_filename file_name
          | _ => assignment_prefix ++ Str.of_nat (i + 1)
          end) with base.
  destruct (Path.splitext base).2 as [|x ext0] eqn:Hbase; cbn [Str.truthy negb].
  2:{ exists []. rewrite app_nil_r. split; [done|]. split; [by left|].
      split; done. }
  fold from_type. pose proof (type_extension file_type) as Htype.
  fold from_type in Htype.
  destruct from_type as [|y ext1] eqn:Hfrom; cbn [res_bind].
  - unfold get_file_extension_from_url.
    destruct (urlparse_path E url) as [path|e]; cbn [res_bind]; [|done].
    destruct (bool_decide _); cbn [res_bind Str.truthy].
    + pose proof (splitext_extension path) as Hext.
      destruct (Path.splitext path).2 as [|z ext2] eqn:Hpath;
        cbn [Str.truthy].
      * exists []. rewrite app_nil_r. split; [done|]. split; [by left|done].
      * exists (z :: ext2). by repeat split.
    + exists []. rewrite app_nil_r. split; [done|]. split; [by left|done].
  - exists (y :: ext1). by repeat split.
Qed.

(** * More on the extraction traversal *)

Section Recording.

Context (parse : pystr → res file_info).
Context (Hparse : ∀ s, ∃ info, parse s = Ok info).

Lemma add_infos_app name xs ys sa :
  add_infos name ys (add_infos name xs sa) = add_infos name (xs ++ ys) sa.
Proof.
  destruct xs as [|x xs]; [done|]. destruct ys as [|y ys].
  { by rewrite app_nil_r. }
  cbn [add_infos app]. rewrite lookup_insert_eq, insert_insert_eq.
  cbn. by rewrite <- app_assoc.
Qed.

Lemma add_infos_lookup name infos sa k :
  default [] (add_infos name infos sa !! k)
  = default [] (sa !! k) ++ (if bool_decide (name = k) then infos else []).
Proof.
  destruct infos as [|x xs]; cbn [add_infos].
  { case_bool_decide; by rewrite app_nil_r. }
  case_bool_decide as Hk.
  - subst k. by rewrite lookup_insert_eq.
  - rewrite lookup_insert_ne by done. by rewrite app_nil_r.
Qed.

Lemma add_infos_no_empty name infos sa :
  no_empty_student sa → no_empty_student (add_infos name infos sa).
Proof.
  intros Hsa. destruct infos as [|x xs]; [done|]. cbn [add_infos].
  intros k l. destruct (decide (name = k)) as [->|Hk].
  - rewrite lookup_insert_eq. intros [= <-]. by destruct (default [] _).
  - rewrite lookup_insert_ne by done. apply Hsa.
Qed.

Lemma record_assignment_adds name a sa :
  record_assignment parse name a sa
  = Ok (add_infos name (option_list (recorded_info parse a)) sa).
Proof.
  unfold record_assignment, recorded_info.
  destruct (submitted_attachment a) as [attachment|]; [|done].
  by destruct (Hparse attachment) as [[[t n] u] ->].
Qed.

Lemma record_assignments_adds name l sa :
  record_assignments parse name l sa
  = Ok (add_infos name (omap (recorded_info parse) l) sa).
Proof.
  revert sa. induction l as [|a l IH]; intros sa; [done|].
  cbn [record_assignments]. rewrite record_assignment_adds. cbn [res_bind].
  rewrite IH, add_infos_app. do 2 f_equal. cbn [omap list_omap].
  by destruct (recorded_info parse a).
Qed.

Lemma recorded_count (l : list assignment) :
  length (omap (recorded_info parse) l)
  = length (filter (λ a, is_Some (submitted_attachment a)) l).
Proof.
  induction l as [|a l IH]; [done|]. cbn [omap list_omap].
  rewrite filter_cons. unfold recorded_info at 1.
  destruct (submitted_attachment a) as [attachment|].
  - destruct (Hparse attachment) as [[[t n] u] ->].
    rewrite decide_True by (by eexists). cbn. by rewrite IH.
  - rewrite decide_False by (by intros []). done.
Qed.

(** The body of the member loop adds to one student at most. *)
Lemma record_member_adds md sa :
  ∃ name,
    record_member parse md sa
    = Ok (add_infos name (member_infos parse name md) sa)
    ∧ (∀ other, other ≠ name → member_infos parse other md = [])
    ∧ length (member_infos parse name md) = member_submissions md.
Proof.
  unfold record_member, member_infos, member_submissions.
  destruct (member md) as [mi|].
  2:{ by exists []. }
  exists (default no_name (displayName mi)).
  rewrite bool_decide_eq_true_2 by done. split; [|split].
  - destruct (default [] (assignments md)) as [|a l] eqn:Hl; [done|].
    apply record_assignments_adds.
  - intros other Hother. by rewrite bool_decide_eq_false_2.
  - apply recorded_count.
Qed.

Lemma submissions_count_insert (name : pystr) (infos : list assignment_info)
    (sa : student_assignments) :
  submissions_count (<[name := infos]> sa) + length (default [] (sa !! name))
  = submissions_count sa + length infos.
Proof.
  assert (Hfresh : ∀ (m : student_assignments) v,
    m !! name = None →
    submissions_count (<[name := v]> m) = length v + submissions_count m).
  { intros m v Hm. unfold submissions_count.
    by rewrite map_to_list_insert. }
  destruct (sa !! name) as [old|] eqn:Hold.
  - rewrite <- (insert_delete_eq sa).
    rewrite <- (insert_delete_id sa name old Hold) at 2.
    rewrite !Hfresh by apply lookup_delete_eq. cbn. lia.
  - rewrite Hfresh by done. cbn. lia.
Qed.

Lemma submissions_count_add name infos sa :
  submissions_count (add_infos name infos sa)
  = submissions_count sa + length infos.
Proof.
  destruct infos as [|x xs]; cbn [add_infos]; [cbn; lia|].
  pose proof (submissions_count_insert name
                (default [] (sa !! name) ++ x :: xs) sa) as H.
  rewrite length_app in H. lia.
Qed.

Lemma record_members_count l sa :
  ∃ sa', record_members parse l sa = Ok sa'
    ∧ submissions_count sa'
      = submissions_count sa + sum_list (member_submissions <$> l).
Proof.
  revert sa. induction l as [|md l IH]; intros sa; cbn [record_members].
  { exists sa. split; [done|]. cbn. lia. }
  destruct (record_member_adds md sa) as (name & -> & _ & Hlen).
  cbn [res_bind].
  destruct (IH (add_infos name (member_infos parse name md) sa))
    as (sa' & -> & Hcount).
  exists sa'. split; [done|].
  rewrite Hcount, submissions_count_add, Hlen. cbn. lia.
Qed.

Lemma record_members_spec l sa :
  ∃ sa', record_members parse l sa = Ok sa'
    ∧ (∀ name, default [] (sa' !! name)
               = default [] (sa !! name) ++ (l ≫= member_infos parse name))
    ∧ (no_empty_student sa → no_empty_student sa').
Proof.
  revert sa. induction l as [|md l IH]; intros sa; cbn [record_members].
  { exists sa. split; [done|]. split; [|done]. intros name.
    by rewrite app_nil_r. }
  destruct (record_member_adds md sa) as (name & -> & Hother & _).
  cbn [res_bind].
  destruct (IH (add_infos name (member_infos parse name md) sa))
    as (sa' & -> & Hlookup & Hne).
  exists sa'. split; [done|]. split.
  - intros k. rewrite Hlookup, add_infos_lookup. cbn [mbind list_bind].
    rewrite <- app_assoc. do 2 f_equal. case_bool_decide as Hk; [by subst|].
    by rewrite Hother.
  - intros Hsa. by apply Hne, add_infos_no_empty.
Qed.

Lemma extract_spec data :
  ∃ sa, extract_student_assignments parse data = Ok sa
    ∧ (∀ name, default [] (sa !! name) = student_infos parse name data)
    ∧ no_empty_student sa.
Proof.
  unfold extract_student_assignments, student_infos.
  destruct (statsByMember data) as [members|].
  - destruct (record_members_spec members ∅) as (sa & -> & Hlookup & Hne).
    exists sa. split; [done|]. split.
    + intros name. by rewrite Hlookup, lookup_empty.
    + apply Hne. intros name infos. by rewrite lookup_empty.
  - exists ∅. split; [done|]. split.
    + intros name. by rewrite lookup_empty.
    + intros name infos. by rewrite lookup_empty.
Qed.

Lemma extract_count data :
  ∃ sa, extract_student_assignments parse data = Ok sa
    ∧ submissions_count sa = report_submissions data.
Proof.
  unfold extract_student_assignments, report_submissions.
  destruct (statsByMember data) as [members|].
  - destruct (record_members_count members ∅) as (sa & -> & Hcount).
    exists sa. split; [done|]. rewrite Hcount.
    unfold submissions_count. by rewrite map_to_list_empty.
  - exists ∅. split; [done|]. unfold submissions_count.
    by rewrite map_to_list_empty.
Qed.

End Recording.

(** Where every student has a submission, there are at least as many
    submissions as students. *)
Lemma students_le_submissions (sa : student_assignments) :
  no_empty_student sa → size sa ≤ submissions_count sa.
Proof.
  intros Hsa. unfold submissions_count.
  rewrite <- length_map_to_list.
  assert (Hall : Forall (λ kv, kv.2 ≠ []) (map_to_list sa)).
  { apply Forall_forall. intros [k v] Hkv%elem_of_map_to_list.
    by apply (Hsa k). }
  induction Hall as [|[k v] l Hv _ IH]; [done|]. cbn in *.
  destruct v; [done|]. cbn. lia.
Qed.

(** X9.  The extraction traversal of v4 never raises, and what it records
    for a student is the list of the dictionaries of the assignments that
    pass the test on [submitAttachments], in the order of the report, over
    all the member records that carry that display name (member records
    without a display name go under the default name, records with the same
    name are merged, records without the [member] key are left out). *)
Theorem extraction_by_student (data : json_data) :
  ∃ sa, extract_student_assignments extract_file_info_from_attachment data
        = Ok sa
      ∧ ∀ name, default [] (sa !! name)
                = student_infos extract_file_info_from_attachment name data.
Proof.
  destruct (extract_spec extract_file_info_from_attachment parser_returns data)
    as (sa & Hsa & Hlookup & _).
  by exists sa.
Qed.

(** X10.  Every student the extraction traversal records has at least one
    submission, so a report never shows more students than submissions. *)
Theorem extraction_students_submitted (data : json_data) :
  ∃ sa, extract_student_assignments extract_file_info_from_attachment data
        = Ok sa
      ∧ no_empty_student sa
      ∧ size sa ≤ submissions_count sa.
Proof.
  destruct (extract_spec extract_file_info_from_attachment parser_returns data)
    as (sa & Hsa & _ & Hne).
  exists sa. split; [done|]. split; [done|].
  by apply students_le_submissions.
Qed.

Lemma v1_parser_returns (s : pystr) :
  ∃ info : file_info, V1.extract_file_info_from_attachment s = Ok info.
Proof.
  unfold V1.extract_file_info_from_attachment.
  destruct (negb _ || _); [by eauto|].
  destruct (Nat.leb_spec 3 (length (Str.split pipe_sep s))) as [Hlen|Hlen];
    [|by eauto].
  destruct (Str.split pipe_sep s) as [|p0 [|p1 [|p2 rest]]];
    simpl in Hlen; try lia.
  cbn [getitem lookup list_lookup res_bind]. by eauto.
Qed.

(** How many dictionaries a student gets does not depend on the parser. *)
Lemma student_infos_length (parse : pystr → res file_info)
    (Hparse : ∀ s, ∃ info, parse s = Ok info)
    (name : pystr) (data : json_data) :
  length (student_infos parse name data)
  = sum_list
      ((λ md, match member md with
              | Some mi =>
                  if bool_decide (default no_name (displayName mi) = name)
                  then member_submissions md else 0
              | None => 0
              end) <$> default [] (statsByMember data)).
Proof.
  unfold student_infos.
  induction (default [] (statsByMember data)) as [|md l IH]; [done|].
  cbn [mbind list_bind fmap list_fmap sum_list_with].
  rewrite length_app, IH. f_equal.
  unfold member_infos, member_submissions.
  destruct (member md) as [mi|]; [|done].
  case_bool_decide; [|done]. by apply recorded_count.
Qed.

(** The students recorded are those with a dictionary to record. *)
Lemma recorded_students (parse : pystr → res file_info)
    (sa : student_assignments) (data : json_data) :
  (∀ name, default [] (sa !! name) = student_infos parse name data) →
  no_empty_student sa →
  ∀ name, name ∈ dom sa ↔ 0 < length (student_infos parse name data).
Proof.
  intros Hlookup Hne name. rewrite elem_of_dom, <- Hlookup. split.
  - intros [l Hl]. rewrite Hl. cbn. apply Hne in Hl. destruct l; [done|].
    cbn. lia.
  - destruct (sa !! name) as [l|]; [by eexists|]. cbn. lia.
Qed.

(** X11.  The first and the last form of the extraction traversal (the
    parser of v1 and v2, the parser of v4) count the same for every report:
    as many submissions as there are assignments that pass the test on
    [submitAttachments] in member records with the [member] key, and the
    same students. *)
Theorem extraction_counts (data : json_data) :
  ∃ sa1 sa4,
    extract_student_assignments V1.extract_file_info_from_attachment data
    = Ok sa1
    ∧ extract_student_assignments extract_file_info_from_attachment data
      = Ok sa4
    ∧ submissions_count sa1 = report_submissions data
    ∧ submissions_count sa4 = report_submissions data
    ∧ dom sa1 = dom sa4
    ∧ size sa1 = size sa4.
Proof.
  destruct (extract_spec _ v1_parser_returns data)
    as (sa1 & Hsa1 & Hlookup1 & Hne1).
  destruct (extract_spec _ parser_returns data)
    as (sa4 & Hsa4 & Hlookup4 & Hne4).
  destruct (extract_count _ v1_parser_returns data) as (sa1' & Hsa1' & Hc1).
  destruct (extract_count _ parser_returns data) as (sa4' & Hsa4' & Hc4).
  rewrite Hsa1 in Hsa1'. rewrite Hsa4 in Hsa4'.
  injection Hsa1' as <-. injection Hsa4' as <-.
  exists sa1, sa4. do 4 (split; [done|]).
  assert (Hdom : dom sa1 = dom sa4).
  { apply set_eq. intros name.
    rewrite (recorded_students _ sa1 data Hlookup1 Hne1),
      (recorded_students _ sa4 data Hlookup4 Hne4).
    by rewrite !student_infos_length
      by (apply v1_parser_returns || apply parser_returns). }
  split; [done|]. by rewrite <- !size_dom, Hdom.
Qed.

(** ** The rows of the CSV file, student by student *)

Lemma sorted_keys_NoDup (sa : student_assignments) : NoDup (sorted_keys sa).
Proof. rewrite sorted_keys_perm. apply NoDup_fst_map_to_list. Qed.

Lemma sorted_keys_elem (sa : student_assignments) (name : pystr) :
  name ∈ sorted_keys sa ↔ is_Some (sa !! name).
Proof.
  rewrite sorted_keys_perm, list_elem_of_fmap. split.
  - intros ([k v] & -> & Hkv%elem_of_map_to_list). by exists v.
  - intros [v Hv]. exists (name, v). by rewrite elem_of_map_to_list.
Qed.

Lemma filter_student_rows (name k : pystr) (infos : list assignment_info) :
  filter (λ row : pystr * assignment_info, row.1 = name)
    (infos ≫= λ info, [(k, info)])
  = if decide (k = name) then (λ info, (k, info)) <$> infos else [].
Proof.
  destruct (decide (k = name)) as [Heq|Hne];
    (induction infos as [|info infos IH]; [done|]);
    rewrite bind_cons; cbn [app]; rewrite filter_cons; cbn [fst].
  - rewrite decide_True by done. cbn. f_equal. apply IH.
  - rewrite decide_False by done. apply IH.
Qed.

Lemma filter_rows (name : pystr) (keys : list pystr)
    (g : pystr → list assignment_info) :
  NoDup keys →
  filter (λ row : pystr * assignment_info, row.1 = name)
    (keys ≫= λ k, g k ≫= λ info, [(k, info)])
  = if decide (name ∈ keys) then (λ info, (name, info)) <$> g name else [].
Proof.
  induction 1 as [|k keys Hk Hkeys IH]; [done|].
  rewrite bind_cons, filter_app, IH, filter_student_rows.
  destruct (decide (k = name)) as [->|Hne].
  - rewrite decide_False by done. rewrite decide_True by (by left).
    by rewrite app_nil_r.
  - destruct (decide (name ∈ keys)) as [Hin|Hnin].
    + by rewrite decide_True by (by right).
    + rewrite decide_False; [done|]. rewrite elem_of_cons.
      intros [Heq|Hin]; [by apply Hne|by apply Hnin].
Qed.

(** X12.  The CSV file holds the recorded submissions and nothing else:
    it has one data row for each of them, and the rows that carry a
    student's name are that student's submissions, in the order they were
    recorded. *)
Theorem csv_holds_recorded (sa : student_assignments) :
  length (create_csv_file sa) = submissions_count sa
  ∧ ∀ name,
      filter (λ row : csv_row, row.1 = name) (create_csv_file sa)
      = (λ info, (name, info)) <$> default [] (sa !! name).
Proof.
  split; [apply csv_rows_count|]. intros name. unfold create_csv_file.
  etrans; [apply (filter_rows name (sorted_keys sa)
                    (λ k, default [] (sa !! k))), sorted_keys_NoDup|].
  destruct (decide (name ∈ sorted_keys sa)) as [Hin|Hnin]; [done|].
  rewrite sorted_keys_elem in Hnin.
  destruct (sa !! name) as [l|]; [|done]. exfalso. apply Hnin. by eexists.
Qed.
(** * More on the main loop of v4 *)

Lemma size_pos_nonempty (sa : student_assignments) : 0 < size sa ↔ sa ≠ ∅.
Proof.
  rewrite <- map_size_empty_iff. lia.
Qed.

(** One file in the loop: the entry appended for a success has students and
    at least as many submissions, and any other entry counts nothing. *)
Lemma file_results (E : env) (st : main_state) (json_file : pystr) :
  ∃ r, processing_results (process_file E st json_file)
       = processing_results st ++ [r]
     ∧ (is_success r = true → 0 < students r ≤ submissions r)
     ∧ (is_success r = false → students r = 0 ∧ submissions r = 0).
Proof.
  unfold process_file, try_file, extract_student_assignments_from_json.
  destruct (read_json E json_file) as [data|e]; cbn [res_bind].
  2:{ eexists. split; [done|]. by split. }
  destruct (extract_spec extract_file_info_from_attachment parser_returns
              data) as (sa & -> & _ & Hne).
  cbn [res_bind].
  destruct (decide (sa = ∅)) as [->|Hsa].
  - rewrite bool_decide_eq_false_2 by (by intros []). cbn [res_bind].
    eexists. split; [done|]. by split.
  - rewrite bool_decide_eq_true_2 by done.
    destruct (creatable E _); cbn [res_bind].
    + eexists. split; [done|]. cbn. split; [|done]. intros _.
      apply size_pos_nonempty in Hsa.
      pose proof (students_le_submissions sa Hne). lia.
    + eexists. split; [done|]. by split.
Qed.

(** X13.  In the results of the main loop of v4, an entry with the status
    of success has at least one student and at least as many submissions as
    students; every other entry (no data, or an error) counts no student
    and no submission. *)
Theorem main_loop_entries (E : env) (json_files : list pystr) :
  Forall (λ r, if is_success r then 0 < students r ≤ submissions r
               else students r = 0 ∧ submissions r = 0)
    (processing_results (main_loop E json_files)).
Proof.
  unfold main_loop. generalize (merge_sort Str.le json_files) as l.
  assert (Hinv : ∀ l st,
    Forall (λ r, if is_success r then 0 < students r ≤ submissions r
                 else students r = 0 ∧ submissions r = 0)
      (processing_results st) →
    Forall (λ r, if is_success r then 0 < students r ≤ submissions r
                 else students r = 0 ∧ submissions r = 0)
      (processing_results (foldl (process_file E) st l))).
  { induction l as [|json_file l IH]; intros st Hst; [done|].
    cbn [foldl]. apply IH.
    destruct (file_results E st json_file) as (r0 & -> & Hok & Hko).
    apply Forall_app. split; [done|]. apply Forall_singleton.
    destruct (is_success r0); [by apply Hok|by apply Hko]. }
  intros l. apply Hinv. constructor.
Qed.

(** * The download traversal and the outside *)

Lemma request_paths_app (l1 l2 : list event) :
  request_paths (l1 ++ l2) = request_paths l1 ++ request_paths l2.
Proof. apply bind_app. Qed.

Lemma after_refl (w : world) : after w [] w.
Proof.
  unfold after. rewrite app_nil_r. cbn. split; [done|]. split; [lia|].
  split; [done|]. intros p Hp. by apply elem_of_nil in Hp.
Qed.

Lemma after_trans (w w1 w2 : world) (evs1 evs2 : list event) :
  after w evs1 w1 → after w1 evs2 w2 → after w (evs1 ++ evs2) w2.
Proof.
  intros (Ht1 & Hq1 & Hfs1 & Hp1) (Ht2 & Hq2 & Hfs2 & Hp2).
  unfold after.
  rewrite request_paths_app, length_app, Ht2, Ht1, Hq2, Hq1, app_assoc.
  split; [done|]. split; [lia|]. split; [by etrans|].
  intros p [Hp|Hp]%elem_of_app; [by apply Hp1|].
  intros Hin. by apply (Hp2 p Hp), Hfs1.
Qed.

Lemma after_create (w : world) (path : pystr) :
  after w [] (create_path path w).
Proof.
  unfold after. cbn. rewrite app_nil_r. split; [done|]. split; [lia|].
  split; [by apply list_subseteq_cons|].
  intros p Hp. by apply elem_of_nil in Hp.
Qed.

Lemma after_sleep (w : world) (seconds : Q) :
  after w [Sleep seconds] (sleep seconds w).
Proof.
  unfold after. cbn. split; [done|]. split; [lia|]. split; [done|].
  intros p Hp. by apply elem_of_nil in Hp.
Qed.

Lemma ran_refl {A} (w : world) (r : res A) : ran 0 w r w.
Proof. exists []. split; [apply after_refl|]. cbn. lia. Qed.

(** Two runs one after the other; when the first raised there is no
    second. *)
Lemma ran_trans {A B} (n m : nat) (w w1 w2 : world) (r1 : res A)
    (r2 : res B) :
  ran n w r1 w1 → ran m w1 r2 w2 → (is_ok r2 → is_ok r1) →
  ran (n + m) w r2 w2.
Proof.
  intros (evs1 & Ha1 & Hu1 & Hl1) (evs2 & Ha2 & Hu2 & Hl2) Hok.
  exists (evs1 ++ evs2). split; [by eapply after_trans|].
  rewrite request_paths_app, length_app. split; [lia|].
  intros Hr2. specialize (Hl1 (Hok Hr2)). specialize (Hl2 Hr2). lia.
Qed.

Lemma ran_raise {A B} (n m : nat) (w w1 : world) (r1 : res A) (e : exn) :
  ran n w r1 w1 → ran (n + m) w (Raise e : res B) w1.
Proof.
  intros (evs & Ha & Hu & _). exists evs. split; [done|]. split; [lia|].
  intros [].
Qed.

Lemma schedule_paths (url file_path : pystr) (a k : nat) :
  request_paths (schedule url file_path a k) = replicate k file_path.
Proof.
  revert a. induction k as [|k IH]; intros a; [done|].
  destruct k as [|k]; [done|].
  change (request_paths (schedule url file_path a (S (S k))))
    with (file_path :: request_paths (schedule url file_path (S a) (S k))).
  by rewrite IH.
Qed.

Lemma download_attempts_fs (E : env) (url file_path : pystr)
    (max_retries : nat) (l : list nat) (w : world) :
  fs w ⊆ fs (download_attempts E url file_path max_retries l w).2.
Proof.
  revert w. induction l as [|a l IH]; intros w; [done|].
  cbn [download_attempts attempt_download].
  assert (Hstep : fs w ⊆ (if created (http E (requests w) url)
                          then file_path :: fs w else fs w)).
  { destruct (created _); [by apply list_subseteq_cons|done]. }
  destruct (http E (requests w) url) as [|c|c]; cbn [snd fs]; [done| |done].
  etrans; [|apply IH]. by destruct (a <? max_retries - 1).
Qed.

(** A call of [download_file] for a path that is not there: one to three
    requests, all for that path. *)
Lemma download_file_after (E : env) (url file_path : pystr) (w : world) :
  file_path ∉ fs w →
  ∃ k, 1 ≤ k ≤ 3
    ∧ after w (schedule url file_path 0 k)
        (download_file E url file_path 3 w).2.
Proof.
  intros Hfree.
  destruct (download_attempts_trace E url file_path 3 3 0 w eq_refl)
    as (k & Hk & Hpos & Hq & Ht).
  exists k. split; [lia|]. unfold after.
  rewrite schedule_paths, length_replicate.
  split; [done|]. split; [done|]. split; [apply download_attempts_fs|].
  by intros p [-> _]%elem_of_replicate.
Qed.

(** What one pass through the body of the assignment loop is, read off
    the code. *)
Lemma process_assignment_inv (E : env) (student_folder : pystr) (i : nat)
    (a : assignment) (c : counters) (w : world) (r : res counters)
    (w' : world) :
  process_assignment E student_folder i a c w = Some (r, w') →
  if downloadable a then
    ∃ attachment file_type file_name url,
      submitted_attachment a = Some attachment
      ∧ extract_file_info_from_attachment attachment
        = Ok (file_type, file_name, Some url)
      ∧ match choose_filename E i file_type file_name url with
        | Raise e => r = Raise e ∧ w' = w
        | Ok clean_filename =>
            ∃ j,
              (candidate_path student_folder clean_filename j ∉ fs w)
              ∧ (∀ j', j' < j →
                   candidate_path student_folder clean_filename j' ∈ fs w)
              ∧ ∃ ok w1,
                  download_file E url
                    (candidate_path student_folder clean_filename j) 3 w
                  = (ok, w1)
                  ∧ if ok then
                      if creatable E
                           (info_file_of student_folder
                              (candidate clean_filename j))
                      then
                        w' = sleep (1 # 2)
                               (create_path
                                  (info_file_of student_folder
                                     (candidate clean_filename j)) w1)
                        ∧ r = Ok {| download_stats :=
                                      incr "successful_downloads"
                                        (incr "total_files"
                                           (download_stats c));
                                    student_files := student_files c + 1;
                                    student_downloads :=
                                      student_downloads c + 1 |}
                      else w' = w1 ∧ r = Raise OSError
                    else
                      w' = sleep (1 # 2) w1
                      ∧ r = Ok {| download_stats :=
                                    incr "failed_downloads"
                                      (incr "total_files" (download_stats c));
                                  student_files := student_files c + 1;
                                  student_downloads := student_downloads c |}
        end
  else r = Ok c ∧ w' = w.
Proof.
  unfold process_assignment, downloadable.
  destruct (submitted_attachment a) as [attachment|]; [|by intros [= <- <-]].
  unfold bind at 1, lift at 1.
  destruct (extract_file_info_from_attachment attachment)
    as [[[file_type file_name] file_url]|e] eqn:Hparse.
  2:{ by destruct (parser_returns attachment) as [info Hinfo];
        rewrite Hinfo in Hparse. }
  destruct file_url as [url|]; [|by intros [= <- <-]].
  destruct (invalid_url (Some url)); [by intros [= <- <-]|]. cbn [negb].
  intros Hrun. exists attachment, file_type, file_name, url.
  split; [done|]. split; [done|]. revert Hrun.
  unfold bind at 1, lift at 1.
  destruct (choose_filename E i file_type file_name url)
    as [clean_filename|e]; [|by intros [= <- <-]].
  unfold bind at 1.
  destruct (resolve_collision_total w student_folder clean_filename)
    as (j & -> & Hfree & Hbelow).
  cbn [ret]. unfold bind at 1.
  destruct (download_file E url _ 3 w) as [ok w1] eqn:Hget. cbn [ret].
  intros Hrun. exists j. split; [done|]. split; [done|].
  exists ok, w1. split; [done|]. revert Hrun.
  unfold bind at 1. destruct ok.
  - unfold bind at 1, write_file. fold (info_file_of student_folder
                                          (candidate clean_filename j)).
    destruct (creatable E _); [|by intros [= <- <-]]. cbn [modify ret].
    unfold bind, modify, ret. by intros [= <- <-].
  - cbn [ret]. unfold bind, modify, ret. by intros [= <- <-].
Qed.

Lemma ran_result {A B} (n : nat) (w w' : world) (r : res A) (r' : res B) :
  ran n w r w' → (is_ok r' → is_ok r) → ran n w r' w'.
Proof.
  intros (evs & Ha & Hu & Hl) Hok. exists evs. split; [done|].
  split; [done|]. intros Hr'. by apply Hl, Hok.
Qed.

Lemma after_ran {A} (w w' : world) (r : res A) : after w [] w' → ran 0 w r w'.
Proof. intros Ha. exists []. split; [done|]. cbn. lia. Qed.

Lemma process_assignment_ran (E : env) (student_folder : pystr) (i : nat)
    (a : assignment) (c : counters) (w : world) (r : res counters)
    (w' : world) :
  process_assignment E student_folder i a c w = Some (r, w') →
  ran (if downloadable a then 1 else 0) w r w'.
Proof.
  intros H%process_assignment_inv. destruct (downloadable a).
  2:{ destruct H as [-> ->]. apply ran_refl. }
  destruct H as (attachment & file_type & file_name & url & _ & _ & H).
  destruct (choose_filename E i file_type file_name url)
    as [clean_filename|e].
  2:{ destruct H as [-> ->]. exists []. split; [apply after_refl|].
      cbn. split; [lia|]. intros []. }
  destruct H as (j & Hfree & _ & ok & w1 & Hget & H).
  destruct (download_file_after E url _ w Hfree) as (k & Hk & Hafter).
  rewrite Hget in Hafter. cbn [snd] in Hafter.
  assert (Hlen : ∀ l, request_paths l = [] →
    length (request_paths
              (schedule url (candidate_path student_folder clean_filename j)
                 0 k ++ l)) = k).
  { intros l Hl.
    by rewrite request_paths_app, schedule_paths, Hl, app_nil_r,
      length_replicate. }
  destruct ok; [destruct (creatable E _)|]; destruct H as [-> ->].
  - eexists. split.
    + eapply after_trans; [exact Hafter|].
      eapply after_trans; [apply after_create|apply after_sleep].
    + rewrite Hlen by done. lia.
  - exists (schedule url (candidate_path student_folder clean_filename j)
              0 k ++ []).
    split; [rewrite app_nil_r; exact Hafter|]. rewrite Hlen by done.
    split; [lia|]. intros [].
  - eexists. split; [eapply after_trans; [exact Hafter|apply after_sleep]|].
    rewrite Hlen by done. lia.
Qed.

Lemma downloadables_cons (a : assignment) (l : list assignment) :
  length (filter (λ a, downloadable a = true) (a :: l))
  = (if downloadable a then 1 else 0)
    + length (filter (λ a, downloadable a = true) l).
Proof.
  rewrite filter_cons. destruct (downloadable a).
  - by rewrite decide_True by done.
  - by rewrite decide_False by done.
Qed.

Lemma process_assignments_ran (E : env) (student_folder : pystr)
    (l : list assignment) (i : nat) (c : counters) (w : world)
    (r : res counters) (w' : world) :
  process_assignments E student_folder i l c w = Some (r, w') →
  ran (length (filter (λ a, downloadable a = true) l)) w r w'.
Proof.
  revert i c w. induction l as [|a l IH]; intros i c w;
    cbn [process_assignments].
  { intros [= <- <-]. apply ran_refl. }
  rewrite downloadables_cons. unfold bind at 1.
  destruct (process_assignment E student_folder i a c w)
    as [[[c1|e] w1]|] eqn:Hone; [| |done].
  - intros Hrest. apply process_assignment_ran in Hone. apply IH in Hrest.
    by eapply ran_trans.
  - intros [= <- <-]. apply process_assignment_ran in Hone.
    by eapply ran_raise.
Qed.

(** [ensure_folder] makes no request, and the folder is there when it
    returns. *)
Lemma ensure_folder_after (E : env) (path : pystr) (w : world)
    (r : res unit) (w' : world) :
  ensure_folder E path w = Some (r, w') →
  after w [] w' ∧ (is_ok r → path ∈ fs w').
Proof.
  unfold ensure_folder, path_exists. case_bool_decide as Hin.
  { intros [= <- <-]. split; [apply after_refl|done]. }
  destruct (creatable E path); intros [= <- <-].
  - split; [apply after_create|]. intros _. cbn. left.
  - split; [apply after_refl|]. intros [].
Qed.

Lemma process_member_ran (E : env) (class_folder : pystr)
    (md : member_data) (d : stats) (w : world) (r : res stats)
    (w' : world) :
  process_member E class_folder md d w = Some (r, w') →
  ran (member_downloadables md) w r w'.
Proof.
  unfold process_member, member_downloadables.
  destruct (member md) as [mi|]; [|intros [= <- <-]; apply ran_refl].
  unfold bind at 1.
  destruct (ensure_folder E _ w) as [[[[]|e] w1]|] eqn:Hfolder; [| |done].
  2:{ intros [= <- <-]. apply ensure_folder_after in Hfolder as [Ha _].
      eapply (ran_raise 0), (after_ran _ _ (Ok tt)), Ha. }
  apply ensure_folder_after in Hfolder as [Ha _].
  destruct (default [] (assignments md)) as [|a l].
  { intros [= <- <-]. by apply after_ran. }
  unfold bind at 1.
  destruct (process_assignments E _ 0 (a :: l) _ w1)
    as [[[c|e] w2]|] eqn:Hloop; [| |done].
  - apply process_assignments_ran in Hloop. intros Hret.
    assert (w' = w2 ∧ is_ok r) as [-> Hr].
    { by destruct (0 <? student_files c); injection Hret as <- <-. }
    apply (ran_trans 0 _ w w1 w2 (Ok tt) r); [by apply after_ran| |done].
    by eapply ran_result.
  - apply process_assignments_ran in Hloop. intros [= <- <-].
    apply (ran_trans 0 _ w w1 w2 (Ok tt) (Raise e));
      [by apply after_ran| |done].
    by eapply ran_result.
Qed.

Lemma process_members_ran (E : env) (class_folder : pystr)
    (l : list member_data) (d : stats) (w : world) (r : res stats)
    (w' : world) :
  process_members E class_folder l d w = Some (r, w') →
  ran (sum_list (member_downloadables <$> l)) w r w'.
Proof.
  revert d w. induction l as [|md l IH]; intros d w; cbn [process_members].
  { intros [= <- <-]. apply ran_refl. }
  unfold bind at 1.
  destruct (process_member E class_folder md d w)
    as [[[d1|e] w1]|] eqn:Hone; [| |done].
  - intros Hrest. apply process_member_ran in Hone. apply IH in Hrest.
    cbn. by eapply ran_trans.
  - intros [= <- <-]. apply process_member_ran in Hone.
    cbn. by eapply ran_raise.
Qed.

Lemma process_json_file_ran (E : env) (json_file_path base : pystr)
    (w : world) (r : res stats) (w' : world) :
  process_json_file E json_file_path base w = Some (r, w') →
  ran (file_downloadables E json_file_path) w r w'.
Proof.
  unfold process_json_file, file_downloadables, report_downloadables.
  destruct (read_json E json_file_path) as [data|e];
    [|intros [= <- <-]; apply ran_refl].
  unfold bind at 1.
  destruct (ensure_folder E _ w) as [[[[]|e] w1]|] eqn:Hfolder; [| |done].
  2:{ intros [= <- <-]. apply ensure_folder_after in Hfolder as [Ha _].
      eapply (ran_raise 0), (after_ran _ _ (Ok tt)), Ha. }
  apply ensure_folder_after in Hfolder as [Ha _].
  destruct (statsByMember data) as [members|].
  - intros H%process_members_ran.
    apply (ran_trans 0 _ w w1 w' (Ok tt) r); [by apply after_ran|done|done].
  - intros [= <- <-]. by apply after_ran.
Qed.

Lemma process_files_ran (E : env) (json_files : list pystr)
    (total_stats : stats) (w : world) (r : res stats) (w' : world) :
  process_files E json_files total_stats w = Some (r, w') →
  ran (sum_list (file_downloadables E <$> json_files)) w r w'.
Proof.
  revert total_stats w. induction json_files as [|json_file l IH];
    intros total_stats w; cbn [process_files].
  { intros [= <- <-]. apply ran_refl. }
  unfold bind at 1.
  destruct (process_json_file E json_file download_folder w)
    as [[[d1|e] w1]|] eqn:Hone; [| |done].
  - intros Hrest. apply process_json_file_ran in Hone. apply IH in Hrest.
    cbn. by eapply ran_trans.
  - intros [= <- <-]. apply process_json_file_ran in Hone.
    cbn. by eapply ran_raise.
Qed.

Lemma sum_sorted (f : pystr → nat) (l : list pystr) :
  sum_list (f <$> merge_sort Str.le l) = sum_list (f <$> l).
Proof.
  apply sum_list_with_Permutation_proper, fmap_Permutation,
    merge_sort_Permutation.
Qed.

Lemma download_main_ran (E : env) (json_files : list pystr) (w : world)
    (r : res stats) (w' : world) :
  download_main E json_files w = Some (r, w') →
  ran (sum_list (file_downloadables E <$> json_files)) w r w'.
Proof.
  unfold download_main. unfold bind at 1.
  destruct (ensure_folder E _ w) as [[[[]|e] w1]|] eqn:Hfolder; [| |done].
  2:{ intros [= <- <-]. apply ensure_folder_after in Hfolder as [Ha _].
      eapply (ran_raise 0), (after_ran _ _ (Ok tt)), Ha. }
  apply ensure_folder_after in Hfolder as [Ha _].
  destruct json_files as [|json_file l].
  { intros [= <- <-]. by apply after_ran. }
  intros H%process_files_ran. rewrite sum_sorted in H.
  apply (ran_trans 0 _ w w1 w' (Ok tt) r); [by apply after_ran|done|done].
Qed.

(** X15.  A run of [main] of the downloader, however it ends, removes no
    path, and none of its requests writes to a path that was there before
    the run: a fetched file never replaces a file of an earlier run.  (The
    information file written beside it is opened without such a test and is
    not among the requests.) *)
Theorem downloads_spare_existing (E : env) (json_files : list pystr)
    (w : world) (r : res stats) (w' : world) :
  download_main E json_files w = Some (r, w') →
  fs w ⊆ fs w'
  ∧ ∃ evs, trace w' = trace w ++ evs
      ∧ ∀ url file_path, Request url file_path ∈ evs → file_path ∉ fs w.
Proof.
  intros (evs & (Ht & _ & Hfs & Hfresh) & _)%download_main_ran.
  split; [done|]. exists evs. split; [done|].
  intros url file_path Hin. apply Hfresh. unfold request_paths.
  apply list_elem_of_bind. exists (Request url file_path).
  split; [left|done].
Qed.

Lemma downloads_spare_existing_witness :
  ∃ r w',
    download_main demo_env [sample_json] kim_world = Some (r, w')
    ∧ fs kim_world ⊆ fs w'
    ∧ ∃ evs, trace w' = trace kim_world ++ evs
        ∧ ∀ url file_path,
            Request url file_path ∈ evs → file_path ∉ fs kim_world.
Proof.
  destruct (download_main demo_env [sample_json] kim_world)
    as [[r w']|] eqn:Hrun.
  - exists r, w'. split; [done|].
    exact (downloads_spare_existing demo_env [sample_json] kim_world r w'
             Hrun).
  - vm_compute in Hrun. discriminate Hrun.
Defined.

Lemma process_json_file_total (E : env) (json_file_path base : pystr)
    (w : world) (d : stats) (w' : world) :
  process_json_file E json_file_path base w = Some (Ok d, w') →
  get0 d "total_files" = file_downloadables E json_file_path.
Proof.
  intros Hrun. unfold file_downloadables.
  destruct (read_json E json_file_path) as [data|e] eqn:Hread.
  - by apply (process_json_file_counts _ _ _ _ _ _ Hrun).
  - unfold process_json_file in Hrun. rewrite Hread in Hrun.
    by injection Hrun as <- <-.
Qed.




(** ** The students counted *)

Lemma process_assignment_students (E : env) (student_folder : pystr)
    (i : nat) (a : assignment) (c : counters) (w : world) (c' : counters)
    (w' : world) :
  process_assignment E student_folder i a c w = Some (Ok c', w') →
  get0 (download_stats c') "students_processed"
  = get0 (download_stats c) "students_processed".
Proof.
  intros H%process_assignment_counts. destruct (downloadable a).
  - destruct H as (ok & -> & _).
    destruct ok; rewrite !get0_incr; by repeat case_decide.
  - by subst.
Qed.

Lemma process_assignments_students (E : env) (student_folder : pystr)
    (l : list assignment) (i : nat) (c : counters) (w : world)
    (c' : counters) (w' : world) :
  process_assignments E student_folder i l c w = Some (Ok c', w') →
  get0 (download_stats c') "students_processed"
  = get0 (download_stats c) "students_processed".
Proof.
  revert i c w. induction l as [|a l IH]; intros i c w;
    cbn [process_assignments].
  { by intros [= <- <-]. }
  unfold bind at 1.
  destruct (process_assignment E student_folder i a c w)
    as [[[c1|e] w1]|] eqn:Hone; [|done..].
  intros Hrest. apply process_assignment_students in Hone.
  apply IH in Hrest. congruence.
Qed.

Lemma process_member_students (E : env) (class_folder : pystr)
    (md : member_data) (d : stats) (w : world) (d' : stats) (w' : world) :
  process_member E class_folder md d w = Some (Ok d', w') →
  get0 d' "students_processed"
  = get0 d "students_processed"
    + (if decide (0 < member_downloadables md) then 1 else 0).
Proof.
  unfold process_member, member_downloadables.
  destruct (member md) as [mi|].
  2:{ intros [= <- <-]. rewrite decide_False by lia. lia. }
  unfold bind at 1.
  destruct (ensure_folder E _ w) as [[[[]|e] w1]|]; [|done..].
  destruct (default [] (assignments md)) as [|a l].
  { intros [= <- <-]. rewrite decide_False by (cbn; lia). lia. }
  unfold bind at 1.
  destruct (process_assignments E _ 0 (a :: l) _ w1)
    as [[[c|e] w2]|] eqn:Hloop; [|done..].
  pose proof (process_assignments_students _ _ _ _ _ _ _ _ Hloop) as Hs.
  apply process_assignments_counts in Hloop as [_ Hf].
  cbn [student_files download_stats] in Hs, Hf. cbn zeta in Hf.
  destruct (Nat.ltb_spec 0 (student_files c)) as [Hpos|Hzero];
    intros [= <- <-].
  - rewrite decide_True by lia. rewrite get0_incr, decide_True by done. lia.
  - rewrite decide_False by lia. lia.
Qed.

Lemma process_members_students (E : env) (class_folder : pystr)
    (l : list member_data) (d : stats) (w : world) (d' : stats)
    (w' : world) :
  process_members E class_folder l d w = Some (Ok d', w') →
  get0 d' "students_processed"
  = get0 d "students_processed" + members_with_files l.
Proof.
  revert d w. induction l as [|md l IH]; intros d w; cbn [process_members].
  { intros [= <- <-]. cbn. lia. }
  unfold bind at 1.
  destruct (process_member E class_folder md d w)
    as [[[d1|e] w1]|] eqn:Hone; [|done..].
  intros Hrest. apply process_member_students in Hone. apply IH in Hrest.
  unfold members_with_files in *. rewrite filter_cons.
  destruct (decide (0 < member_downloadables md)); cbn [length]; lia.
Qed.

Lemma members_with_files_le (l : list member_data) :
  members_with_files l ≤ sum_list (member_downloadables <$> l).
Proof.
  unfold members_with_files. induction l as [|md l IH]; [done|].
  rewrite filter_cons. cbn [fmap list_fmap sum_list_with].
  destruct (decide (0 < member_downloadables md)); cbn [length]; cbn; lia.
Qed.

Lemma process_json_file_students (E : env) (json_file_path base : pystr)
    (w : world) (d : stats) (w' : world) :
  process_json_file E json_file_path base w = Some (Ok d, w') →
  get0 d "students_processed" ≤ get0 d "total_files"
  ∧ ∀ data, read_json E json_file_path = Ok data →
      get0 d "students_processed"
      = members_with_files (default [] (statsByMember data)).
Proof.
  intros Hrun.
  pose proof (process_json_file_total _ _ _ _ _ _ Hrun) as Htotal.
  revert Hrun Htotal. unfold process_json_file, file_downloadables.
  destruct (read_json E json_file_path) as [data|e].
  2:{ intros [= <- <-] _. split; [done|]. by intros data [=]. }
  unfold bind at 1.
  destruct (ensure_folder E _ w) as [[[[]|e] w1]|]; [|done..].
  unfold report_downloadables.
  destruct (statsByMember data) as [members|] eqn:Hmembers.
  - intros H%process_members_students Htotal.
    change (get0 new_stats "students_processed") with 0 in H.
    pose proof (members_with_files_le members). split; [cbn in *; lia|].
    intros data' [= <-]. by rewrite Hmembers.
  - intros [= <- <-] _. split; [done|]. intros data' [= <-].
    by rewrite Hmembers.
Qed.

(** X17.  The students [process_json_file] counts are the member records
    with at least one attachment that passes the URL validation: a member
    record without the [member] key, without assignments or without such
    an attachment is not counted, and two records of one student count
    twice.  So there are never more students than files. *)
Theorem students_processed_count (E : env) (json_file_path base : pystr)
    (w : world) (d : stats) (w' : world) (data : json_data) :
  read_json E json_file_path = Ok data →
  process_json_file E json_file_path base w = Some (Ok d, w') →
  get0 d "students_processed"
  = members_with_files (default [] (statsByMember data))
  ∧ get0 d "students_processed" ≤ get0 d "total_files".
Proof.
  intros Hread [Hle Hcount]%process_json_file_students. split; [|done].
  by apply Hcount.
Qed.

Lemma students_processed_count_witness :
  ∃ d w',
    process_json_file demo_env sample_json download_folder empty_world
    = Some (Ok d, w')
    ∧ get0 d "students_processed" = 1
    ∧ get0 d "students_processed" ≤ get0 d "total_files".
Proof.
  destruct (process_json_file demo_env sample_json download_folder
              empty_world) as [[[d|e] w']|] eqn:Hrun.
  - exists d, w'. split; [done|].
    exact (students_processed_count demo_env sample_json download_folder
             empty_world d w' demo_report eq_refl Hrun).
  - vm_compute in Hrun. discriminate Hrun.
  - vm_compute in Hrun. discriminate Hrun.
Defined.

(** ** The totals of [main] *)







(** ** The two pipelines on one report *)

Lemma downloadable_submitted (a : assignment) :
  downloadable a = true → is_Some (submitted_attachment a).
Proof.
  unfold downloadable. destruct (submitted_attachment a); [by eexists|done].
Qed.

Lemma report_downloadables_le (data : json_data) :
  report_downloadables data ≤ report_submissions data.
Proof.
  unfold report_downloadables, report_submissions.
  induction (default [] (statsByMember data)) as [|md l IH]; [done|].
  cbn [fmap list_fmap sum_list_with] in *. cbn in *.
  assert (member_downloadables md ≤ member_submissions md); [|lia].
  unfold member_downloadables, member_submissions.
  destruct (member md); [|done].
  induction (default [] (assignments md)) as [|a l' IH']; [done|].
  rewrite !filter_cons.
  destruct (decide (downloadable a = true)) as [Hd|Hd].
  - rewrite decide_True by (by apply downloadable_submitted). cbn. lia.
  - destruct (decide (is_Some (submitted_attachment a))); cbn; lia.
Qed.

(** X19.  The downloader counts no more files in a report than the
    extraction of v4 records submissions for it, so the CSV file of the
    report has at least as many data rows as the downloader has files. *)
Theorem downloads_within_submissions (E : env)
    (json_file_path base : pystr) (w : world) (d : stats) (w' : world)
    (sa : student_assignments) :
  process_json_file E json_file_path base w = Some (Ok d, w') →
  extract_student_assignments_from_json extract_file_info_from_attachment
    E json_file_path = Ok sa →
  get0 d "total_files" ≤ submissions_count sa
  ∧ get0 d "total_files" ≤ length (create_csv_file sa).
Proof.
  intros Hrun Hextract. rewrite csv_rows_count.
  assert (get0 d "total_files" ≤ submissions_count sa); [|done].
  rewrite (process_json_file_total _ _ _ _ _ _ Hrun).
  unfold file_downloadables.
  unfold extract_student_assignments_from_json in Hextract.
  destruct (read_json E json_file_path) as [data|e]; [|done].
  cbn [res_bind] in Hextract.
  destruct (extract_count extract_file_info_from_attachment parser_returns
              data) as (sa' & Hsa' & Hcount).
  rewrite Hsa' in Hextract. injection Hextract as ->.
  rewrite Hcount. apply report_downloadables_le.
Qed.

Lemma downloads_within_submissions_witness :
  ∃ d w' sa,
    process_json_file demo_env sample_json download_folder empty_world
    = Some (Ok d, w')
    ∧ extract_student_assignments_from_json
        extract_file_info_from_attachment demo_env sample_json = Ok sa
    ∧ get0 d "total_files" ≤ submissions_count sa
    ∧ get0 d "total_files" ≤ length (create_csv_file sa).
Proof.
  destruct (process_json_file demo_env sample_json download_folder
              empty_world) as [[[d|e] w']|] eqn:Hrun.
  - destruct (extract_student_assignments_from_json
                extract_file_info_from_attachment demo_env sample_json)
      as [sa|e] eqn:Hextract.
    + exists d, w', sa. split; [done|]. split; [done|].
      exact (downloads_within_submissions demo_env sample_json
               download_folder empty_world d w' sa Hrun Hextract).
    + vm_compute in Hextract. discriminate Hextract.
  - vm_compute in Hrun. discriminate Hrun.
  - vm_compute in Hrun. discriminate Hrun.
Defined.

(** ** The folders *)

Lemma ran_fs {A} (n : nat) (w : world) (r : res A) (w' : world) :
  ran n w r w' → fs w ⊆ fs w'.
Proof. by intros (evs & (_ & _ & Hfs & _) & _). Qed.

Lemma process_member_folder (E : env) (class_folder : pystr)
    (md : member_data) (mi : member_info) (d : stats) (w : world)
    (d' : stats) (w' : world) :
  process_member E class_folder md d w = Some (Ok d', w') →
  member md = Some mi →
  student_folder_of class_folder mi ∈ fs w'.
Proof.
  unfold process_member, student_folder_of. intros Hrun Hmi.
  rewrite Hmi in Hrun. revert Hrun. unfold bind at 1.
  destruct (ensure_folder E _ w) as [[[[]|e] w1]|] eqn:Hfolder; [|done..].
  apply ensure_folder_after in Hfolder as [_ Hin]. specialize (Hin I).
  destruct (default [] (assignments md)) as [|a l]; [by intros [= <- <-]|].
  unfold bind at 1.
  destruct (process_assignments E _ 0 (a :: l) _ w1)
    as [[[c|e] w2]|] eqn:Hloop; [|done..].
  apply process_assignments_ran, ran_fs in Hloop.
  destruct (0 <? student_files c); intros [= <- <-]; by apply Hloop.
Qed.

Lemma process_members_folders (E : env) (class_folder : pystr)
    (l : list member_data) (d : stats) (w : world) (d' : stats)
    (w' : world) :
  process_members E class_folder l d w = Some (Ok d', w') →
  ∀ md mi, md ∈ l → member md = Some mi →
    student_folder_of class_folder mi ∈ fs w'.
Proof.
  revert d w. induction l as [|md0 l IH]; intros d w; cbn [process_members].
  { intros _ md mi Hin. by apply elem_of_nil in Hin. }
  unfold bind at 1.
  destruct (process_member E class_folder md0 d w)
    as [[[d1|e] w1]|] eqn:Hone; [|done..].
  intros Hrest md mi [->|Hin]%elem_of_cons Hmi.
  - apply process_members_ran, ran_fs in Hrest. apply Hrest.
    by eapply process_member_folder.
  - by eapply IH.
Qed.

(** X20.  When [process_json_file] returns the statistics of a report, the
    folder of the class is there, and so is the folder of every member
    record with the [member] key, also of a student without assignments or
    without anything to fetch. *)
Theorem student_folders_created (E : env) (json_file_path base : pystr)
    (w : world) (d : stats) (w' : world) (data : json_data) :
  read_json E json_file_path = Ok data →
  process_json_file E json_file_path base w = Some (Ok d, w') →
  class_folder_of base json_file_path ∈ fs w'
  ∧ ∀ md mi, md ∈ default [] (statsByMember data) → member md = Some mi →
      student_folder_of (class_folder_of base json_file_path) mi ∈ fs w'.
Proof.
  unfold process_json_file, class_folder_of. intros -> Hrun. revert Hrun.
  unfold bind at 1.
  destruct (ensure_folder E _ w) as [[[[]|e] w1]|] eqn:Hfolder; [|done..].
  apply ensure_folder_after in Hfolder as [_ Hin]. specialize (Hin I).
  destruct (statsByMember data) as [members|].
  - intros Hrun. split.
    + by apply (ran_fs _ _ _ _ (process_members_ran _ _ _ _ _ _ _ Hrun)).
    + by apply (process_members_folders _ _ _ _ _ _ _ Hrun).
  - intros [= <- <-]. split; [done|]. intros md mi Hmd.
    by apply elem_of_nil in Hmd.
Qed.

Lemma student_folders_created_witness :
  ∃ d w',
    process_json_file demo_env sample_json download_folder empty_world
    = Some (Ok d, w')
    ∧ class_folder_of download_folder sample_json ∈ fs w'
    ∧ ∀ md mi,
        md ∈ default [] (statsByMember demo_report) → member md = Some mi →
        student_folder_of (class_folder_of download_folder sample_json) mi
        ∈ fs w'.
Proof.
  destruct (process_json_file demo_env sample_json download_folder
              empty_world) as [[[d|e] w']|] eqn:Hrun.
  - exists d, w'. split; [done|].
    exact (student_folders_created demo_env sample_json download_folder
             empty_world d w' demo_report eq_refl Hrun).
  - vm_compute in Hrun. discriminate Hrun.
  - vm_compute in Hrun. discriminate Hrun.
Defined.

(** ** One assignment *)

(** X21.  An assignment whose attachment does not pass the URL validation
    (no [submitAttachments], a sentinel, no URL found, or a URL that does
    not start with ["https://"]) is passed over: the body of the assignment
    loop makes no request, creates nothing, does not sleep and changes no
    counter. *)
Theorem assignment_without_url_skipped (E : env) (student_folder : pystr)
    (i : nat) (a : assignment) (c : counters) (w : world) :
  downloadable a = false →
  process_assignment E student_folder i a c w = Some (Ok c, w).
Proof.
  unfold process_assignment, downloadable.
  destruct (submitted_attachment a) as [attachment|]; [|done].
  unfold bind at 1, lift at 1.
  destruct (parser_returns attachment)
    as [[[file_type file_name] file_url] ->].
  destruct file_url as [url|]; [|done].
  by destruct (invalid_url (Some url)).
Qed.

Lemma assignment_without_url_skipped_witness :
  process_assignment demo_env sample_folder 0
    (attachment_only (Str.lit "see http://x/y.pdf"))
    {| download_stats := new_stats; student_files := 0;
       student_downloads := 0 |} sample_world
  = Some (Ok {| download_stats := new_stats; student_files := 0;
                student_downloads := 0 |}, sample_world).
Proof.
  apply (assignment_without_url_skipped demo_env sample_folder 0
           (attachment_only (Str.lit "see http://x/y.pdf"))).
  vm_compute. reflexivity.
Defined.


